(** * usaco_bedrock_agents: the retry-and-extraction loop of [main.py]

    A shallow embedding of [src/main.py]: the code extractor
    [_get_python_code], the retrying inference call [_process_task] and the
    batch driver [run], followed by the properties the specification states
    about them.

    Python values are embedded as follows.
    - [str] is [string]; a Python [int] is [Z].
    - A [dict] with string keys whose order is irrelevant ([kwargs], a task
      record, the local [code] and [results]) is a [gmap string _]; the
      [input] mapping, which is iterated in insertion order, is an
      association list whose keys are pairwise distinct.
    - An exception is a value of [exn]; a computation that may raise returns
      a [result].
    - The outside world (the [completion] transport of litellm,
      [random.randint], [time.sleep], the file system, [str.format]) is
      threaded explicitly: a [state] counts the transport calls and random
      draws made so far and records every suspension, and the external
      functions are variables of the section, indexed by those counters.

    Left out, as they change no value the program computes: the calls of
    [logger] and [print] (with the [json.dumps] of a task inside one of
    them; a task read from JSON is serialisable) and the tracing context
    [weave.attributes]. *)

From Stdlib Require Import ZArith QArith Ascii String.
From stdpp Require Import gmap strings list fin_maps.

Local Open Scope Z_scope.

(** ** Exceptions and results *)

Inductive exn : Type :=
  | NoContentGeneratedException (msg : string)
  | RateLimitError (msg : string)
  | IndexError (msg : string)
  | KeyError (key : string)
  | TypeError (msg : string)
  | AssertionError (msg : string)
  | FileNotFoundError (msg : string)
  | OtherException (name msg : string).

Inductive result (A : Type) : Type :=
  | Ret (a : A)
  | Raise (e : exn).
Arguments Ret {A} a.
Arguments Raise {A} e.

(** ** Text helpers *)

Definition nl : string := String "010"%char EmptyString.
Definition dquote : string := String "034"%char EmptyString.

(** [strip_prefix p s] is [Some r] when [s = p ++ r], [None] when [s] does
    not begin with the literal [p]. *)
Fixpoint strip_prefix (p s : string) : option string :=
  match p with
  | EmptyString => Some s
  | String a p' =>
      match s with
      | EmptyString => None
      | String b s' => if Ascii.eqb a b then strip_prefix p' s' else None
      end
  end.

(** ** The regular expression of the extractor

    [r"```python\n(.*?)```"]: a literal opening fence, one lazy capture group
    [(.*?)] and a literal closing fence.  With [re.DOTALL] the dot matches
    every character, newline included.  A pattern of that shape is kept as
    its two literals. *)

Record fence_regex : Type := FenceRegex {
  opening : string;
  closing : string
}.

Definition REGEX_FOR_PY_CODE_EXTRACTION : fence_regex :=
  {| opening := "```python" +:+ nl; closing := "```" |}.

(** The lazy group followed by the closing literal: the shortest [c] with
    [s = c ++ closing ++ rest], tried from the empty capture upwards as the
    backtracking matcher does. *)
Fixpoint lazy_until (close s : string) {struct s} : option (string * string) :=
  match strip_prefix close s with
  | Some rest => Some (EmptyString, rest)
  | None =>
      match s with
      | EmptyString => None
      | String a s' =>
          match lazy_until close s' with
          | Some (c, rest) => Some (String a c, rest)
          | None => None
          end
      end
  end.

(** One match attempt anchored at the start of [s]: the captured group and
    the text after the match. *)
Definition match_at (re : fence_regex) (s : string) : option (string * string) :=
  match strip_prefix (opening re) s with
  | Some body => lazy_until (closing re) body
  | None => None
  end.

(** [re.findall(pattern, text, re.DOTALL)] for a pattern with one group:
    the captures of the non-overlapping matches, leftmost first.  The scan
    tries a match at the current position; on success it records the capture
    and resumes after the match, otherwise it moves one character on.  The
    opening literal is not empty, so a match always consumes text and the
    rules of [re] for empty matches never apply.  The scan resumes on a
    suffix that is not a subterm, so it goes by fuel; [findall] supplies one
    unit more than the text has characters ([scan_fuel] below: any such
    amount gives the same list). *)
Fixpoint scan (fuel : nat) (re : fence_regex) (s : string) : list string :=
  match fuel with
  | O => []
  | S fuel' =>
      match match_at re s with
      | Some (c, rest) => c :: scan fuel' re rest
      | None =>
          match s with
          | EmptyString => []
          | String _ s' => scan fuel' re s'
          end
      end
  end.

Definition findall (re : fence_regex) (text : string) : list string :=
  scan (S (String.length text)) re text.

(** The Python objects the variable [matches] may hold. *)
Inductive pyobj : Type :=
  | PyNone
  | PyList (items : list string).

(** [re.findall] always returns a list, empty when nothing matches. *)
Definition re_findall (re : fence_regex) (text : string) : pyobj :=
  PyList (findall re text).

(** [matches is None] *)
Definition is_None (v : pyobj) : bool :=
  match v with
  | PyNone => true
  | PyList _ => false
  end.

(** [matches[0]] *)
Definition getitem0 (v : pyobj) : result string :=
  match v with
  | PyNone => Raise (TypeError "'NoneType' object is not subscriptable")
  | PyList [] => Raise (IndexError "list index out of range")
  | PyList (c :: _) => Ret c
  end.

(** The canned program of [main.py], line by line. *)
Definition FAILED_RESPONSE : string :=
  nl +:+
  "import sys" +:+ nl +:+
  nl +:+
  "def main():" +:+ nl +:+
  "    input = sys.stdin.read" +:+ nl +:+
  "    data = input().split()" +:+ nl +:+
  "    " +:+ nl +:+
  "    # do nothing, this is a canned response so that the eval for" +:+ nl +:+
  "    # this task can silently fail" +:+ nl +:+
  nl +:+
  "    print(data)" +:+ nl +:+
  nl +:+
  "if __name__ == " +:+ dquote +:+ "__main__" +:+ dquote +:+ ":" +:+ nl +:+
  "    main()" +:+ nl.

(** [_get_python_code(text, regex_for_code_extraction, failure_response)].
    The logging call of the [None] branch has no effect on the value. *)
Definition _get_python_code (text : string) (regex_for_code_extraction : fence_regex)
    (failure_response : string) : result string :=
  let matches := re_findall regex_for_code_extraction text in
  if is_None matches then Ret failure_response
  else getitem0 matches.

(** ** What the specification calls a fenced block *)

Definition begins_with (p s : string) : Prop := exists r, s = p +:+ r.

(** [text] holds a complete block: an opening fence, a body, a closing
    fence. *)
Definition has_block (re : fence_regex) (text : string) : Prop :=
  exists pre body rest,
    text = pre +:+ opening re +:+ body +:+ closing re +:+ rest.

(** The literal [lit] begins at no position inside [pre] when [pre] is
    followed by [lit]. *)
Definition no_start_within (lit pre : string) : Prop :=
  forall p1 p2, pre = p1 +:+ p2 -> p2 <> EmptyString ->
    ~ begins_with lit (p2 +:+ lit).

(** [pre], [body], [rest] cut [text] at its first block: the leftmost
    opening fence and the closing fence nearest to it. *)
Definition first_block (re : fence_regex) (text pre body rest : string) : Prop :=
  text = pre +:+ opening re +:+ body +:+ closing re +:+ rest /\
  no_start_within (opening re) pre /\
  no_start_within (closing re) body.

(** The opening fence occurs somewhere in [text]. *)
Definition has_opening (re : fence_regex) (text : string) : Prop :=
  exists pre post, text = pre +:+ opening re +:+ post.

(** Substring search, to decide [has_opening] on a given text. *)
Fixpoint contains_b (p s : string) : bool :=
  match strip_prefix p s with
  | Some _ => true
  | None =>
      match s with
      | EmptyString => false
      | String _ s' => contains_b p s'
      end
  end.

(** ** The model invocation boundary *)

(** What [_process_task] and [run] read of litellm's response: the
    completion-token count of [response['usage']] and the message content of
    the choices, of which the transport returns at least one. *)
Record ModelResponse : Type := {
  completion_tokens : Z;
  first_content : string;
  other_contents : list string
}.

(** [dict(max_tokens=2000, temperature=0.1, n=1)] *)
Record inference_params : Type := {
  max_tokens : Z;
  temperature : Q;
  n : Z
}.

(** One entry of [messages]: role and content. *)
Record message : Type := { role : string; content : string }.

(** One call of [completion]: it answers or it raises. *)
Inductive transport_result : Type :=
  | Responds (r : ModelResponse)
  | Throws (e : exn).

(** ** Program state

    [calls] and [draws] count the calls of [completion] and of
    [random.randint] made so far, [slept] lists the arguments of every
    [time.sleep] in order.  [results] and [code] are the two local
    dictionaries of [run]; they live in the state because an exception
    raised inside the [try] block leaves their updates in place.
    [assigned] records every execution of
    [input[task_id]['response'] = code[task_id]], so that the number of
    writes to a response field can be counted. *)
Record state : Type := {
  calls : nat;
  draws : nat;
  slept : list Z;
  results : gmap string string;
  code : gmap string string;
  assigned : list (string * string)
}.

Definition with_calls (f : nat -> nat) (st : state) : state :=
  {| calls := f (calls st); draws := draws st; slept := slept st;
     results := results st; code := code st; assigned := assigned st |}.
Definition with_draws (f : nat -> nat) (st : state) : state :=
  {| calls := calls st; draws := f (draws st); slept := slept st;
     results := results st; code := code st; assigned := assigned st |}.
Definition with_slept (f : list Z -> list Z) (st : state) : state :=
  {| calls := calls st; draws := draws st; slept := f (slept st);
     results := results st; code := code st; assigned := assigned st |}.
Definition with_results (f : gmap string string -> gmap string string) (st : state) : state :=
  {| calls := calls st; draws := draws st; slept := slept st;
     results := f (results st); code := code st; assigned := assigned st |}.
Definition with_code (f : gmap string string -> gmap string string) (st : state) : state :=
  {| calls := calls st; draws := draws st; slept := slept st;
     results := results st; code := f (code st); assigned := assigned st |}.
Definition with_assigned (f : list (string * string) -> list (string * string))
    (st : state) : state :=
  {| calls := calls st; draws := draws st; slept := slept st;
     results := results st; code := code st; assigned := f (assigned st) |}.

(** Total time spent in [time.sleep]. *)
Definition total_slept (st : state) : Z := foldr Z.add 0 (slept st).

(** ** Computations: state passing with exceptions

    A raised exception keeps the state reached so far. *)
Definition M (A : Type) : Type := state -> result A * state.

Definition ret {A} (a : A) : M A := fun st => (Ret a, st).
Definition raise {A} (e : exn) : M A := fun st => (Raise e, st).
Definition bind {A B} (m : M A) (k : A -> M B) : M B :=
  fun st =>
    match m st with
    | (Ret a, st') => k a st'
    | (Raise e, st') => (Raise e, st')
    end.
(** [try: m  except Exception as e: h e] *)
Definition try_except {A} (m : M A) (h : exn -> M A) : M A :=
  fun st =>
    match m st with
    | (Ret a, st') => (Ret a, st')
    | (Raise e, st') => h e st'
    end.
Definition lift {A} (r : result A) : M A := fun st => (r, st).
Definition modify (f : state -> state) : M unit := fun st => (Ret tt, f st).
Definition gets {A} (f : state -> A) : M A := fun st => (Ret (f st), st).

Declare Scope py_scope.
Delimit Scope py_scope with py.
Notation "x <- m ;; k" := (bind m (fun x => k))
  (at level 100, m at next level, right associativity) : py_scope.
Notation "m ;;; k" := (bind m (fun _ => k))
  (at level 100, right associativity) : py_scope.
Local Open Scope py_scope.

(** [d[key]] on a dictionary with string keys. *)
Definition getitem {V} (d : gmap string V) (key : string) : M V :=
  match d !! key with
  | Some v => ret v
  | None => raise (KeyError key)
  end.

(** What one pass through the body of a [for] loop asks for next. *)
Inductive flow (A : Type) : Type :=
  | Continue
  | Return (a : A).
Arguments Continue {A}.
Arguments Return {A} a.

(** [for x in xs: body], for a body that may [return]; running off the end
    of the loop, and so of the function, gives [None]. *)
Fixpoint for_returning {X A} (body : X -> M (flow A)) (xs : list X) : M (option A) :=
  match xs with
  | [] => ret None
  | x :: xs' =>
      step <- body x ;;
      match step with
      | Continue => for_returning body xs'
      | Return a => ret (Some a)
      end
  end.

(** [for x in xs: body] *)
Fixpoint for_each {X} (body : X -> M unit) (xs : list X) : M unit :=
  match xs with
  | [] => ret tt
  | x :: xs' => body x ;;; for_each body xs'
  end.

(** [range(n)] *)
Definition range (n : Z) : list Z := Z.of_nat <$> seq 0 (Z.to_nat n).

(** A task record and the [input] mapping in insertion order. *)
Abbreviation task := (gmap string string).
Abbreviation tasks := (list (string * gmap string string)).

(** [d[key][field] = v] on the insertion-ordered mapping: the entry of [key]
    is updated in place. *)
Fixpoint setitem_field (d : tasks) (key field v : string) : tasks :=
  match d with
  | [] => []
  | (k, t) :: d' =>
      if decide (k = key) then (k, <[field := v]> t) :: d'
      else (k, t) :: setitem_field d' key field v
  end.

(** ** Stand-ins for the external collaborators

    Concrete transports, a constant [random.randint], a template store and
    a batch, on which the theorems below are instantiated. *)

Definition a_response (tokens : Z) (text : string) : ModelResponse :=
  {| completion_tokens := tokens; first_content := text; other_contents := [] |}.

Definition always_rate_limited
    : nat -> string -> list message -> inference_params -> transport_result :=
  fun _ _ _ _ => Throws (RateLimitError "rate limit exceeded").

Definition rate_limited_then (k : nat) (r : ModelResponse)
    : nat -> string -> list message -> inference_params -> transport_result :=
  fun i _ _ _ =>
    if (i <? k)%nat then Throws (RateLimitError "rate limit exceeded")
    else Responds r.

Definition always_answers (r : ModelResponse)
    : nat -> string -> list message -> inference_params -> transport_result :=
  fun _ _ _ _ => Responds r.

Definition always_throws (e : exn)
    : nat -> string -> list message -> inference_params -> transport_result :=
  fun _ _ _ _ => Throws e.

(** The first call fails for good, every later call answers with [r]. *)
Definition fails_then_answers (e : exn) (r : ModelResponse)
    : nat -> string -> list message -> inference_params -> transport_result :=
  fun i _ _ _ =>
    match i with
    | O => Throws e
    | S _ => Responds r
    end.

Definition jitter_five : nat -> Z -> Z -> Z := fun _ _ _ => 5.

(** A transport that answers with [r] a request of one message with the
    parameters [max_tokens=2000], [n=1], and refuses every other request. *)
Definition answers_single_message (r : ModelResponse)
    : nat -> string -> list message -> inference_params -> transport_result :=
  fun _ _ messages params =>
    match messages with
    | [_] =>
        if (max_tokens params =? 2000) && (n params =? 1) then Responds r
        else Throws (OtherException "BadRequestError" "unexpected parameters")
    | _ => Throws (OtherException "BadRequestError" "unexpected messages")
    end.

(** The first [k] calls answer with zero completion tokens, the later ones
    with [r]. *)
Definition empty_then (k : nat) (r : ModelResponse)
    : nat -> string -> list message -> inference_params -> transport_result :=
  fun i _ _ _ =>
    if (i <? k)%nat then Responds (a_response 0 "blocked by content filters")
    else Responds r.

(** A template engine that appends the question to the template. *)
Definition append_question (template question : string) : result string :=
  Ret (template +:+ question).

Definition initial_state : state :=
  {| calls := 0; draws := 0; slept := []; results := ∅; code := ∅; assigned := [] |}.

Definition nova_template_path : string := "prompt_templates/nova.txt".

Definition sample_files : gmap string string :=
  {[ nova_template_path := "Solve the problem: " ]}.

Definition sample_kwargs : gmap string string :=
  <["model_name" := "bedrock/amazon.nova-lite-v1:0"]>
    {[ "prompt_template_path" := nova_template_path ]}.

Definition sample_input : tasks :=
  [("t1", {[ "description" := "add two numbers" ]});
   ("t2", {[ "description" := "sort a list" ]})].

(** A batch whose first task has no description, and whose second task
    carries fields of its own, a stale response among them. *)
Definition ragged_input : tasks :=
  [("t1", {[ "title" := "no description here" ]});
   ("t2", <["response" := "stale"]>
            (<["level" := "gold"]> {[ "description" := "sort a list" ]}))].

Definition nova_model : string := "bedrock/amazon.nova-lite-v1:0".

(** The model text of the end-to-end example of the specification. *)
Definition fenced_print : string :=
  "```python" +:+ nl +:+ "print(1)" +:+ nl +:+ "```".

Section Program.

(** The external collaborators.  [completion i model msgs params] is the
    outcome of the [i]-th call of litellm's [completion] and [randint i a b]
    the value of the [i]-th call of [random.randint(a, b)]; [fs] maps the
    paths of the existing files to their text, [str_format t q] is
    [t.format(question=q)] and [this_file] is [os.path.abspath(__file__)]. *)
Variable completion : nat -> string -> list message -> inference_params -> transport_result.
Variable randint : nat -> Z -> Z -> Z.
Variable fs : gmap string string.
Variable str_format : string -> string -> result string.
Variable this_file : string.

Definition call_completion (model : string) (messages : list message)
    (params : inference_params) : M ModelResponse :=
  fun st =>
    match completion (calls st) model messages params with
    | Responds r => (Ret r, with_calls S st)
    | Throws e => (Raise e, with_calls S st)
    end.

Definition random_randint (a b : Z) : M Z :=
  fun st => (Ret (randint (draws st) a b), with_draws S st).

Definition time_sleep (seconds : Z) : M unit :=
  modify (with_slept (fun l => l ++ [seconds])).

(** The handler of the two retryable exceptions; the two [except] clauses
    of the source differ only in what they log. *)
Definition retry_or_reraise {A} (max_retries retry_delay attempt : Z) (e : exn)
    : M (flow A) :=
  if attempt <? max_retries - 1 then
    jitter <- random_randint 1 10 ;;
    let this_retry_delay := retry_delay * (attempt + 1) + jitter in
    time_sleep this_retry_delay ;;;
    ret Continue
  else raise e.

(** The body of [for attempt in range(max_retries)]. *)
Definition attempt_body (max_retries retry_delay : Z)
    (task_id model_name formatted_prompt : string) (params : inference_params)
    (attempt : Z) : M (flow ModelResponse) :=
  try_except
    (response <- call_completion model_name
                   [{| role := "user"; content := formatted_prompt |}] params ;;
     if completion_tokens response =? 0 then
       let content := first_content response in
       raise (NoContentGeneratedException
                ("completion tokens is 0, content=" +:+ content))
     else ret (Return response))
    (fun e =>
       match e with
       | NoContentGeneratedException _ =>
           retry_or_reraise max_retries retry_delay attempt e
       | RateLimitError _ =>
           retry_or_reraise max_retries retry_delay attempt e
       | _ => raise e
       end).

(** The loop of [_process_task] for any retry budget and base delay. *)
Definition retry_loop (max_retries retry_delay : Z)
    (task_id model_name formatted_prompt : string) (params : inference_params)
    : M (option ModelResponse) :=
  for_returning
    (attempt_body max_retries retry_delay task_id model_name formatted_prompt params)
    (range max_retries).

(** The two locals that [_process_task] sets before its loop. *)
Definition max_retries : Z := 10.
Definition retry_delay : Z := 60.

Definition _process_task (task_id model_name formatted_prompt : string)
    (params : inference_params) : M (option ModelResponse) :=
  retry_loop max_retries retry_delay task_id model_name formatted_prompt params.

(** [response["choices"][0]["message"]["content"]] *)
Definition message_content (response : option ModelResponse) : M string :=
  match response with
  | Some r => ret (first_content r)
  | None => raise (TypeError "'NoneType' object is not subscriptable")
  end.

(** [inference_params = dict(max_tokens=2000, temperature=0.1, n=1)] *)
Definition run_inference_params : inference_params :=
  {| max_tokens := 2000; temperature := 1 # 10; n := 1 |}.

(** The [try] block of [run] for one task. *)
Definition task_try (kwargs : gmap string string) (prompt_template : string)
    (task_id : string) (t : task) : M unit :=
  let params := run_inference_params in
  description <- getitem t "description" ;;
  formatted_prompt <- lift (str_format prompt_template description) ;;
  model_name <- getitem kwargs "model_name" ;;
  response <- _process_task task_id model_name formatted_prompt params ;;
  text <- message_content response ;;
  modify (with_results <[task_id := text]>) ;;;
  python_code <- lift (_get_python_code text REGEX_FOR_PY_CODE_EXTRACTION FAILED_RESPONSE) ;;
  modify (with_code <[task_id := python_code]>).

(** The body of the first loop of [run]. *)
Definition task_body (kwargs : gmap string string) (item : string * task) : M unit :=
  let '(task_id, t) := item in
  template_path <- getitem kwargs "prompt_template_path" ;;
  prompt_template <-
    match fs !! template_path with
    | Some text => ret text
    | None =>
        raise (FileNotFoundError
                 ("Prompt template not found at " +:+ template_path +:+
                  ", current file path is " +:+ this_file))
    end ;;
  try_except
    (task_try kwargs prompt_template task_id t)
    (fun _ => modify (with_code <[task_id := FAILED_RESPONSE]>)).

(** The body of the second loop of [run], on the mapping as updated so
    far. *)
Definition assign_response (d : tasks) (task_id : string) : M tasks :=
  c <- (cd <- gets code ;; getitem cd task_id) ;;
  modify (with_assigned (fun l => l ++ [(task_id, c)])) ;;;
  ret (setitem_field d task_id "response" c).

Fixpoint assign_responses (d : tasks) (task_ids : list string) : M tasks :=
  match task_ids with
  | [] => ret d
  | task_id :: rest =>
      d' <- assign_response d task_id ;;
      assign_responses d' rest
  end.

(** [run(input, **kwargs)] *)
Definition run (input : tasks) (kwargs : gmap string string) : M tasks :=
  match kwargs !! "model_name" with
  | None => raise (AssertionError "model_name is required")
  | Some _ =>
      modify (with_results (fun _ => ∅)) ;;;
      modify (with_code (fun _ => ∅)) ;;;
      for_each (task_body kwargs) input ;;;
      assign_responses input input.*1
  end.

(** ** Notions to state what [run] does *)

(** The state in which the first loop of [run] starts: the two local
    dictionaries are empty. *)
Definition reset_locals (st : state) : state :=
  with_code (fun _ => ∅) (with_results (fun _ => ∅) st).

(** The state in which [run] turns to the task that follows the tasks
    [before]. *)
Definition state_before (kwargs : gmap string string) (before : tasks)
    (st : state) : state :=
  (for_each (task_body kwargs) before (reset_locals st)).2.

(** [c] is genuine extracted code for the task: the inference for its
    formatted prompt, started in [st], returned a response whose text holds
    a block, and [c] is the first capture. *)
Definition genuine_code (kwargs : gmap string string) (prompt_template : string)
    (task_id : string) (t : task) (st : state) (c : string) : Prop :=
  exists description prompt model_name r st1 l,
    t !! "description" = Some description /\
    str_format prompt_template description = Ret prompt /\
    kwargs !! "model_name" = Some model_name /\
    _process_task task_id model_name prompt run_inference_params st
      = (Ret (Some r), st1) /\
    findall REGEX_FOR_PY_CODE_EXTRACTION (first_content r) = c :: l.

(** The inference for the task, started in [st], ends in an exception. *)
Definition inference_fails (kwargs : gmap string string) (prompt_template : string)
    (task_id : string) (t : task) (st : state) : Prop :=
  exists description prompt model_name e st1,
    t !! "description" = Some description /\
    str_format prompt_template description = Ret prompt /\
    kwargs !! "model_name" = Some model_name /\
    _process_task task_id model_name prompt run_inference_params st
      = (Raise e, st1).

(** The mapping with the response field of every task set from [codes]. *)
Definition with_responses (codes : gmap string string) (input : tasks) : tasks :=
  (fun item => (item.1, <["response" := codes !!! item.1]> item.2)) <$> input.

(** ** The outcome classes of the specification

    One attempt succeeds, fails in a way worth retrying, or fails for
    good. *)
Inductive attempt_class : Type :=
  | Success (r : ModelResponse)
  | Retryable (e : exn)
  | Fatal (e : exn).

Definition classify (t : transport_result) : attempt_class :=
  match t with
  | Responds r =>
      if completion_tokens r =? 0
      then Retryable (NoContentGeneratedException
                        ("completion tokens is 0, content=" +:+ first_content r))
      else Success r
  | Throws (NoContentGeneratedException m) => Retryable (NoContentGeneratedException m)
  | Throws (RateLimitError m) => Retryable (RateLimitError m)
  | Throws e => Fatal e
  end.

(** The outcome of the attempt with index [i] of an invocation started in
    state [st]. *)
Definition attempt_outcome (st : state) (model_name formatted_prompt : string)
    (params : inference_params) (i : nat) : transport_result :=
  completion (calls st + i)%nat model_name
    [{| role := "user"; content := formatted_prompt |}] params.

(** The delays of the first [k] retries of an invocation whose first
    attempt has index [a] and whose first draw has index [d]. *)
Definition backoff_delays (base_delay : Z) (a d k : nat) : list Z :=
  (fun i => base_delay * (Z.of_nat (a + i) + 1) + randint (d + i)%nat 1 10) <$> seq 0 k.

(** The state after [k] retries. *)
Definition after_retries (base_delay : Z) (a k : nat) (st : state) : state :=
  with_slept (fun l => l ++ backoff_delays base_delay a (draws st) k)
    (with_draws (fun d => (d + k)%nat) (with_calls (fun c => (c + k)%nat) st)).

(** The part of each delay that does not depend on the draw. *)
Definition base_delays (base_delay : Z) (k : nat) : list Z :=
  (fun i => base_delay * (Z.of_nat i + 1)) <$> seq 0 k.

Definition sum_list (l : list Z) : Z := foldr Z.add 0 l.

(** ** Facts about text *)

(* stdpp keeps [simpl] from unfolding string concatenation; the proofs below
   compute with it. *)
Local Arguments String.append !_ _ / : simpl nomatch.

Lemma app_empty_r s : s +:+ EmptyString = s.
Proof. induction s as [|a s IH]; simpl; congruence. Qed.

Lemma app_assoc_s s t u : (s +:+ t) +:+ u = s +:+ t +:+ u.
Proof. induction s as [|a s IH]; simpl; congruence. Qed.

Lemma length_app_s s t :
  String.length (s +:+ t) = (String.length s + String.length t)%nat.
Proof. induction s as [|a s IH]; simpl; congruence. Qed.

(** Two ways to cut one text: the longer first part extends the shorter. *)
Lemma app_split_s p b u v :
  p +:+ b = u +:+ v -> (String.length p <= String.length u)%nat ->
  exists x, u = p +:+ x /\ b = x +:+ v.
Proof.
  revert u; induction p as [|a p IH]; intros u H Hlen; simpl in *.
  - by exists u.
  - destruct u as [|a' u]; simpl in *; [lia|].
    injection H as -> H. destruct (IH u H) as (x & -> & ->); [lia|].
    by exists x.
Qed.

Lemma strip_prefix_app p r : strip_prefix p (p +:+ r) = Some r.
Proof. induction p as [|a p IH]; simpl; [done|]. by rewrite Ascii.eqb_refl. Qed.

Lemma strip_prefix_Some p s r : strip_prefix p s = Some r -> s = p +:+ r.
Proof.
  revert s; induction p as [|a p IH]; intros s H; simpl in *.
  - congruence.
  - destruct s as [|b s]; [discriminate|].
    destruct (Ascii.eqb_spec a b) as [->|]; [|discriminate].
    by rewrite (IH _ H).
Qed.

Lemma strip_prefix_None p s : strip_prefix p s = None <-> ~ begins_with p s.
Proof.
  split.
  - intros H [r ->]. by rewrite strip_prefix_app in H.
  - intros H. destruct (strip_prefix p s) as [r|] eqn:E; [|done].
    exfalso. apply H. exists r. by apply strip_prefix_Some.
Qed.

(** Whether [lit] begins a text is decided by the first [length lit]
    characters, so what follows [p2 ++ lit] does not matter. *)
Lemma begins_with_tail lit p2 tail :
  begins_with lit (p2 +:+ lit +:+ tail) <-> begins_with lit (p2 +:+ lit).
Proof.
  split.
  - intros [r Hr]. rewrite <- app_assoc_s in Hr. symmetry in Hr.
    destruct (app_split_s _ _ _ _ Hr) as (x & Hx & _).
    + rewrite length_app_s. lia.
    + by exists x.
  - intros [x Hx]. exists (x +:+ tail).
    by rewrite <- !app_assoc_s, Hx.
Qed.

Lemma strip_prefix_length p s r :
  strip_prefix p s = Some r -> (String.length r <= String.length s)%nat.
Proof.
  revert s; induction p as [|a p IH]; intros s H; simpl in H.
  - injection H as <-. lia.
  - destruct s as [|b s]; [discriminate|].
    destruct (Ascii.eqb a b); [|discriminate].
    apply IH in H. simpl. lia.
Qed.

Lemma strip_prefix_length_lt a p s r :
  strip_prefix (String a p) s = Some r -> (String.length r < String.length s)%nat.
Proof.
  simpl. destruct s as [|b s]; [discriminate|].
  destruct (Ascii.eqb a b); [|discriminate].
  intros H%strip_prefix_length. simpl. lia.
Qed.

Lemma lazy_until_length close s c r :
  lazy_until close s = Some (c, r) -> (String.length r <= String.length s)%nat.
Proof.
  revert c r; induction s as [|a s IH]; intros c r H; simpl in H.
  - destruct (strip_prefix close EmptyString) eqn:E; [|discriminate].
    injection H as _ <-. by apply strip_prefix_length in E.
  - destruct (strip_prefix close (String a s)) eqn:E.
    + injection H as _ <-. by apply strip_prefix_length in E.
    + destruct (lazy_until close s) as [[c' r']|] eqn:E'; [|discriminate].
      injection H as _ <-. specialize (IH _ _ eq_refl). simpl. lia.
Qed.


(** ** The matcher against the block structure of a text *)

Lemma no_start_within_empty lit : no_start_within lit EmptyString.
Proof.
  intros p1 p2 H Hne. destruct p1; simpl in H; [congruence | discriminate].
Qed.

Lemma no_start_within_cons lit a pre :
  ~ begins_with lit (String a pre +:+ lit) ->
  no_start_within lit pre ->
  no_start_within lit (String a pre).
Proof.
  intros Hhd Htl p1 p2 H Hne. destruct p1 as [|b p1]; simpl in H.
  - by subst p2.
  - injection H as _ H. by apply (Htl p1 p2).
Qed.

Lemma no_start_within_inv lit a pre :
  no_start_within lit (String a pre) ->
  ~ begins_with lit (String a pre +:+ lit) /\ no_start_within lit pre.
Proof.
  intros H. split.
  - by apply (H EmptyString (String a pre)).
  - intros p1 p2 -> Hne. by apply (H (String a p1) p2).
Qed.

(** The lazy group stops at the nearest closing fence. *)
Lemma lazy_until_sound close s c r :
  lazy_until close s = Some (c, r) ->
  s = c +:+ close +:+ r /\ no_start_within close c.
Proof.
  revert c r; induction s as [|a s IH]; intros c r H; simpl in H.
  - destruct (strip_prefix close EmptyString) as [r0|] eqn:E; [|discriminate].
    injection H as <- <-. split; [by apply strip_prefix_Some in E|].
    apply no_start_within_empty.
  - destruct (strip_prefix close (String a s)) as [r0|] eqn:E.
    + injection H as <- <-. split; [by apply strip_prefix_Some in E|].
      apply no_start_within_empty.
    + destruct (lazy_until close s) as [[c' r']|] eqn:E'; [|discriminate].
      injection H as <- <-. destruct (IH _ _ eq_refl) as [-> Hc'].
      split; [done|]. apply no_start_within_cons; [|done].
      apply strip_prefix_None in E. intros Hb. apply E.
      by apply (begins_with_tail close (String a c') r').
Qed.

Lemma lazy_until_exact close c r :
  no_start_within close c ->
  lazy_until close (c +:+ close +:+ r) = Some (c, r).
Proof.
  induction c as [|a c IH]; intros Hc.
  - simpl. destruct close as [|b close]; simpl.
    + by destruct r.
    + rewrite Ascii.eqb_refl.
      assert (strip_prefix close (close +:+ r) = Some r) as E
        by apply strip_prefix_app.
      destruct r; simpl in *; by rewrite E.
  - apply no_start_within_inv in Hc as [Hhd Htl].
    assert (strip_prefix close (String a c +:+ close +:+ r) = None) as E.
    { apply strip_prefix_None. intros Hb. apply Hhd.
      by apply (begins_with_tail close (String a c) r). }
    simpl in *. rewrite E, (IH Htl). done.
Qed.

(** The lazy group fails only when no closing fence is left. *)
Lemma lazy_until_complete close c r :
  exists c' r', lazy_until close (c +:+ close +:+ r) = Some (c', r').
Proof.
  induction c as [|a c (c' & r' & IH)].
  - exists EmptyString, r. apply lazy_until_exact, no_start_within_empty.
  - simpl. destruct (strip_prefix close _) as [r0|]; [by eauto|].
    rewrite IH. eauto.
Qed.

Lemma match_at_sound re s c r :
  match_at re s = Some (c, r) ->
  s = opening re +:+ c +:+ closing re +:+ r /\ no_start_within (closing re) c.
Proof.
  unfold match_at. destruct (strip_prefix (opening re) s) as [b|] eqn:E; [|discriminate].
  intros [-> Hc]%lazy_until_sound. by apply strip_prefix_Some in E.
Qed.

Lemma match_at_exact re c r :
  no_start_within (closing re) c ->
  match_at re (opening re +:+ c +:+ closing re +:+ r) = Some (c, r).
Proof.
  intros Hc. unfold match_at. rewrite strip_prefix_app. by apply lazy_until_exact.
Qed.

(** Where the opening fence does not begin, no match is anchored. *)
Lemma match_at_no_opening re s :
  ~ begins_with (opening re) s -> match_at re s = None.
Proof.
  intros H%strip_prefix_None. unfold match_at. by rewrite H.
Qed.

(** A failed anchored match on a text that holds a block further on: the
    opening fence does not begin here at all. *)
Lemma match_at_None_block re a pre body rest :
  match_at re (String a pre +:+ opening re +:+ body +:+ closing re +:+ rest) = None ->
  ~ begins_with (opening re) (String a pre +:+ opening re).
Proof.
  unfold match_at. intros H Hb.
  apply (begins_with_tail _ _ (body +:+ closing re +:+ rest)) in Hb.
  destruct Hb as [b Hb]. rewrite Hb, strip_prefix_app in H.
  assert (exists x, b = x +:+ closing re +:+ rest) as [x ->].
  { rewrite <- !app_assoc_s in Hb. rewrite !app_assoc_s in Hb.
    assert (((String a pre +:+ opening re) +:+ body) +:+ closing re +:+ rest
            = opening re +:+ b) as Hb'.
    { rewrite <- Hb. by rewrite !app_assoc_s. }
    symmetry in Hb'. destruct (app_split_s _ _ _ _ Hb') as (x & _ & ->).
    - rewrite !length_app_s. simpl. lia.
    - by exists x. }
  destruct (lazy_until_complete (closing re) x rest) as (c' & r' & E).
  by rewrite E in H.
Qed.

(** [first_block] says what its name promises: no opening fence begins
    further left, and no closing fence begins inside the body. *)
Lemma first_block_leftmost re text pre body rest pre' post' :
  first_block re text pre body rest ->
  text = pre' +:+ opening re +:+ post' ->
  (String.length pre <= String.length pre')%nat.
Proof.
  intros (-> & Hpre & _) Htext.
  destruct (decide (String.length pre' < String.length pre)%nat) as [Hlt|]; [|lia].
  exfalso. symmetry in Htext.
  destruct (app_split_s _ _ _ _ Htext) as (x & -> & Hx); [lia|].
  apply (Hpre pre' x); [done| |].
  - intros ->. rewrite app_empty_r in Hlt. lia.
  - apply (begins_with_tail _ _ (body +:+ closing re +:+ rest)).
    exists post'. by rewrite !app_assoc_s in *.
Qed.

Lemma first_block_nearest re text pre body rest body' rest' :
  first_block re text pre body rest ->
  body +:+ closing re +:+ rest = body' +:+ closing re +:+ rest' ->
  (String.length body <= String.length body')%nat.
Proof.
  intros (_ & _ & Hbody) Htext.
  destruct (decide (String.length body' < String.length body)%nat) as [Hlt|]; [|lia].
  exfalso. symmetry in Htext.
  destruct (app_split_s _ _ _ _ Htext) as (x & -> & Hx); [lia|].
  apply (Hbody body' x); [done| |].
  - intros ->. rewrite app_empty_r in Hlt. lia.
  - apply (begins_with_tail _ _ rest). exists rest'. by rewrite !app_assoc_s in *.
Qed.

(** The first capture of the scan is the body of the first block. *)
Lemma scan_head_sound re fuel s c l :
  scan fuel re s = c :: l ->
  exists pre rest, first_block re s pre c rest.
Proof.
  revert s; induction fuel as [|fuel IH]; intros s H; simpl in H; [discriminate|].
  destruct (match_at re s) as [[c' r]|] eqn:E.
  - injection H as -> _. apply match_at_sound in E as [-> Hc].
    exists EmptyString, r. split; [done|]. split; [apply no_start_within_empty | done].
  - destruct s as [|a s]; [discriminate|].
    destruct (IH _ H) as (pre & rest & -> & Hpre & Hc).
    exists (String a pre), rest. split; [done|]. split; [|done].
    apply no_start_within_cons; [|done].
    by apply (match_at_None_block re a pre c rest).
Qed.

(** Conversely the scan reaches the first block and captures its body. *)
Lemma scan_first_block re fuel s pre body rest :
  first_block re s pre body rest ->
  (String.length pre < fuel)%nat ->
  exists l, scan fuel re s = body :: l.
Proof.
  intros (-> & Hpre & Hc). revert fuel.
  induction pre as [|a pre IH]; intros fuel Hfuel.
  - destruct fuel as [|fuel]; [simpl in Hfuel; lia|]. simpl.
    rewrite match_at_exact by done. eauto.
  - destruct fuel as [|fuel]; [lia|]. simpl in Hfuel.
    apply no_start_within_inv in Hpre as [Hhd Htl].
    cbn [scan]. rewrite match_at_no_opening.
    + simpl. apply IH; [done | lia].
    + intros Hb. apply Hhd.
      by apply (begins_with_tail _ _ (body +:+ closing re +:+ rest)).
Qed.

(** A text that holds a block somewhere yields a capture. *)
Lemma scan_block_nonempty re fuel s :
  has_block re s -> (String.length s < fuel)%nat -> scan fuel re s <> [].
Proof.
  intros (pre & body & rest & ->). revert fuel.
  induction pre as [|a pre IH]; intros fuel Hfuel;
    (destruct fuel as [|fuel]; [lia|]); cbn [scan].
  - simpl. unfold match_at. rewrite strip_prefix_app.
    destruct (lazy_until_complete (closing re) body rest) as (c' & r' & ->). done.
  - destruct (match_at re _) as [[c r]|]; [done|]. simpl.
    apply IH. simpl in Hfuel. lia.
Qed.

(** Without an opening fence the scan captures nothing. *)
Lemma scan_no_opening re fuel s :
  ~ has_opening re s -> scan fuel re s = [].
Proof.
  revert s; induction fuel as [|fuel IH]; intros s H; [done|]. simpl.
  rewrite match_at_no_opening.
  - destruct s as [|a s]; [done|]. apply IH.
    intros (pre & post & ->). apply H. by exists (String a pre), post.
  - intros [r ->]. apply H. by exists EmptyString, r.
Qed.

(** Any fuel beyond the length of the text gives the same captures. *)
Lemma scan_fuel re n m s :
  opening re <> EmptyString ->
  (String.length s < n)%nat -> (String.length s < m)%nat ->
  scan n re s = scan m re s.
Proof.
  intros Hop. revert m s; induction n as [|n IH]; intros m s Hn Hm; [lia|].
  destruct m as [|m]; [lia|]. simpl.
  destruct (match_at re s) as [[c r]|] eqn:E.
  - f_equal. unfold match_at in E.
    destruct (strip_prefix (opening re) s) as [b|] eqn:Eb; [|discriminate].
    apply lazy_until_length in E.
    destruct (opening re) as [|a p]; [done|].
    apply strip_prefix_length_lt in Eb. apply IH; lia.
  - destruct s as [|a s]; [done|]. simpl in *. apply IH; lia.
Qed.

Lemma getitem0_findall_nil re text fb :
  findall re text = [] ->
  _get_python_code text re fb = Raise (IndexError "list index out of range").
Proof. unfold _get_python_code, re_findall. by intros ->. Qed.

Lemma getitem0_findall_cons re text fb c l :
  findall re text = c :: l -> _get_python_code text re fb = Ret c.
Proof. unfold _get_python_code, re_findall. by intros ->. Qed.

Lemma contains_b_unfold p s :
  contains_b p s =
  match strip_prefix p s with
  | Some _ => true
  | None => match s with EmptyString => false | String _ s' => contains_b p s' end
  end.
Proof. by destruct s. Qed.

Lemma contains_b_complete p s :
  (exists pre post, s = pre +:+ p +:+ post) -> contains_b p s = true.
Proof.
  intros (pre & post & ->). induction pre as [|a pre IH]; rewrite contains_b_unfold.
  - simpl. by rewrite strip_prefix_app.
  - simpl in *. by destruct (strip_prefix p _).
Qed.

Lemma no_opening_by_search re text :
  contains_b (opening re) text = false -> ~ has_opening re text.
Proof.
  intros H Hop. apply contains_b_complete in Hop. congruence.
Qed.

Lemma has_block_has_opening re text : has_block re text -> has_opening re text.
Proof. intros (pre & body & rest & ->). by exists pre, (body +:+ closing re +:+ rest). Qed.

(** A text without a complete block yields no capture. *)
Lemma findall_no_block re text : ~ has_block re text -> findall re text = [].
Proof.
  intros H. unfold findall. destruct (scan _ re text) as [|c l] eqn:E; [done|].
  exfalso. apply H. apply scan_head_sound in E as (pre & rest & -> & _).
  by exists pre, c, rest.
Qed.

(** ** [_get_python_code] *)

(** C1.  On a text that holds no fenced block [re.findall] returns the empty
    list, which is not [None]: the guard of the fallback branch is false and
    [matches[0]] raises [IndexError].  The fallback is not returned. *)
Theorem get_python_code_no_block_raises re text failure_response :
  ~ has_block re text ->
  _get_python_code text re failure_response
    = Raise (IndexError "list index out of range") /\
  _get_python_code text re failure_response <> Ret failure_response.
Proof.
  intros H%findall_no_block.
  rewrite (getitem0_findall_nil _ _ _ H). done.
Qed.

(** C4.  A text that holds a fenced block has a first block, the leftmost
    opening fence with the closing fence nearest to it, and the extractor
    returns the body of that block as it stands, whatever follows the
    closing fence. *)
Theorem get_python_code_first_block re text failure_response :
  has_block re text ->
  (exists pre body rest, first_block re text pre body rest) /\
  (forall pre body rest, first_block re text pre body rest ->
     _get_python_code text re failure_response = Ret body /\
     forall rest',
       _get_python_code (pre +:+ opening re +:+ body +:+ closing re +:+ rest')
         re failure_response = Ret body).
Proof.
  intros Hblock. split.
  - destruct (scan (S (String.length text)) re text) as [|c l] eqn:E.
    + exfalso. apply (scan_block_nonempty re (S (String.length text)) text); [done | lia | done].
    + apply scan_head_sound in E as (pre & rest & Hfirst). eauto.
  - intros pre body rest Hfirst.
    assert (forall rest', exists l,
              findall re (pre +:+ opening re +:+ body +:+ closing re +:+ rest')
              = body :: l) as Hany.
    { intros rest'. apply (scan_first_block re _ _ pre body rest').
      - destruct Hfirst as (_ & Hpre & Hbody). by split.
      - rewrite length_app_s. lia. }
    split.
    + destruct Hfirst as (-> & _). destruct (Hany rest) as [l Hl].
      by apply (getitem0_findall_cons _ _ _ _ l).
    + intros rest'. destruct (Hany rest') as [l Hl].
      by apply (getitem0_findall_cons _ _ _ _ l).
Qed.

(** C10.  When no triple backtick of the text is followed by [python] and a
    newline, whatever else it is tagged with, nothing is captured and the
    extractor does on the text what it does on every text without a
    block. *)
Theorem get_python_code_other_tags text failure_response :
  (forall pre post, text = pre +:+ "```" +:+ post ->
     ~ begins_with ("python" +:+ nl) post) ->
  findall REGEX_FOR_PY_CODE_EXTRACTION text = [] /\
  forall text', ~ has_block REGEX_FOR_PY_CODE_EXTRACTION text' ->
    _get_python_code text REGEX_FOR_PY_CODE_EXTRACTION failure_response
    = _get_python_code text' REGEX_FOR_PY_CODE_EXTRACTION failure_response.
Proof.
  intros Htags.
  assert (findall REGEX_FOR_PY_CODE_EXTRACTION text = []) as Hnone.
  { apply scan_no_opening. intros (pre & post & ->).
    apply (Htags pre ("python" +:+ nl +:+ post)); [done|]. by exists post. }
  split; [done|]. intros text' H%findall_no_block.
  by rewrite (getitem0_findall_nil _ _ _ Hnone), (getitem0_findall_nil _ _ _ H).
Qed.

(** ** The retry loop *)

Lemma state_eq (s1 s2 : state) :
  calls s1 = calls s2 -> draws s1 = draws s2 -> slept s1 = slept s2 ->
  results s1 = results s2 -> code s1 = code s2 -> assigned s1 = assigned s2 ->
  s1 = s2.
Proof. destruct s1, s2; simpl; congruence. Qed.

(** One attempt does what its outcome class says: the [try] block and the
    three [except] clauses against the explicit classification. *)
Lemma attempt_body_spec max_retries retry_delay task_id model_name prompt params attempt st :
  attempt_body max_retries retry_delay task_id model_name prompt params attempt st =
  match classify (attempt_outcome st model_name prompt params 0) with
  | Success r => (Ret (Return r), with_calls S st)
  | Fatal e => (Raise e, with_calls S st)
  | Retryable e =>
      if attempt <? max_retries - 1
      then (Ret Continue,
            with_slept
              (fun l => l ++ [retry_delay * (attempt + 1) + randint (draws st) 1 10])
              (with_draws S (with_calls S st)))
      else (Raise e, with_calls S st)
  end.
Proof.
  unfold attempt_body, attempt_outcome, try_except, bind, call_completion, classify.
  rewrite Nat.add_0_r.
  destruct (completion _ _ _ _) as [r|e]; simpl.
  - destruct (completion_tokens r =? 0); simpl; [|done].
    unfold retry_or_reraise. by destruct (attempt <? max_retries - 1).
  - destruct e; simpl; try done;
      unfold retry_or_reraise; by destruct (attempt <? max_retries - 1).
Qed.

Lemma attempt_outcome_shift st st' model_name prompt params i :
  calls st' = S (calls st) ->
  attempt_outcome st' model_name prompt params i =
  attempt_outcome st model_name prompt params (S i).
Proof. unfold attempt_outcome. intros ->. by rewrite Nat.add_succ_comm. Qed.

Lemma backoff_delays_S retry_delay a d k :
  backoff_delays retry_delay a d (S k) =
  (retry_delay * (Z.of_nat a + 1) + randint d 1 10)
    :: backoff_delays retry_delay (S a) (S d) k.
Proof.
  unfold backoff_delays. simpl. rewrite !Nat.add_0_r. f_equal.
  rewrite <- seq_shift, <- list_fmap_compose. apply list_fmap_ext.
  intros _ i _. simpl. by rewrite !Nat.add_succ_r.
Qed.

Lemma backoff_delays_length retry_delay a d k :
  length (backoff_delays retry_delay a d k) = k.
Proof. unfold backoff_delays. by rewrite length_fmap, length_seq. Qed.

Lemma backoff_delays_lookup retry_delay a d k i :
  (i < k)%nat ->
  backoff_delays retry_delay a d k !! i =
  Some (retry_delay * (Z.of_nat (a + i) + 1) + randint (d + i)%nat 1 10).
Proof.
  intros Hi. unfold backoff_delays.
  by rewrite list_lookup_fmap, lookup_seq_lt.
Qed.

Lemma after_retries_0 retry_delay a st : after_retries retry_delay a 0 st = st.
Proof.
  apply state_eq; simpl; try done; try lia. by rewrite app_nil_r.
Qed.

Lemma after_retries_S retry_delay a k st :
  after_retries retry_delay (S a) k
    (with_slept
       (fun l => l ++ [retry_delay * (Z.of_nat a + 1) + randint (draws st) 1 10])
       (with_draws S (with_calls S st)))
  = after_retries retry_delay a (S k) st.
Proof.
  apply state_eq; simpl; try done; try lia.
  rewrite backoff_delays_S, <- app_assoc. done.
Qed.

Section Loop.

Variables (budget base_delay : Z).
Variables (task_id model_name prompt : string) (params : inference_params).

Let body := attempt_body budget base_delay task_id model_name prompt params.
Let outcome st i := classify (attempt_outcome st model_name prompt params i).

(** After [k] retryable failures the loop stands at attempt [a + k], having
    slept the first [k] backoff delays. *)
Lemma retry_loop_prefix k a n st :
  (k < n)%nat -> Z.of_nat (a + n) = budget ->
  (forall i, (i < k)%nat -> exists e, outcome st i = Retryable e) ->
  for_returning body (Z.of_nat <$> seq a n) st =
  for_returning body (Z.of_nat <$> seq (a + k) (n - k))
    (after_retries base_delay a k st).
Proof.
  revert a n st; induction k as [|k IH]; intros a m st Hk Hm Hretry.
  - by rewrite after_retries_0, Nat.add_0_r, Nat.sub_0_r.
  - destruct m as [|m]; [lia|]. cbn [seq fmap list_fmap for_returning].
    unfold bind at 1. subst body. rewrite attempt_body_spec.
    destruct (Hretry 0%nat) as [e He]; [lia|]. unfold outcome in He. rewrite He.
    assert ((Z.of_nat a <? budget - 1) = true) as -> by (apply Z.ltb_lt; lia).
    rewrite IH.
    + rewrite after_retries_S. by rewrite Nat.add_succ_comm.
    + lia.
    + lia.
    + intros i Hi. destruct (Hretry (S i)) as [e' He']; [lia|].
      exists e'. unfold outcome in *. by rewrite attempt_outcome_shift with (st := st).
Qed.

(** The attempt that ends the loop, by class. *)
Lemma retry_loop_success k a n st r :
  (k < n)%nat -> Z.of_nat (a + n) = budget ->
  (forall i, (i < k)%nat -> exists e, outcome st i = Retryable e) ->
  outcome st k = Success r ->
  for_returning body (Z.of_nat <$> seq a n) st =
  (Ret (Some r), with_calls S (after_retries base_delay a k st)).
Proof.
  intros Hk Hm Hretry Hsucc. rewrite (retry_loop_prefix k) by done.
  destruct (n - k)%nat as [|m] eqn:E; [lia|].
  cbn [seq fmap list_fmap for_returning]. unfold bind. subst body.
  rewrite attempt_body_spec. unfold outcome in Hsucc.
  replace (attempt_outcome (after_retries base_delay a k st) model_name prompt params 0)
    with (attempt_outcome st model_name prompt params k).
  - by rewrite Hsucc.
  - unfold attempt_outcome. simpl. by rewrite Nat.add_0_r.
Qed.

Lemma retry_loop_fatal k a n st e :
  (k < n)%nat -> Z.of_nat (a + n) = budget ->
  (forall i, (i < k)%nat -> exists e, outcome st i = Retryable e) ->
  outcome st k = Fatal e ->
  for_returning body (Z.of_nat <$> seq a n) st =
  (Raise e, with_calls S (after_retries base_delay a k st)).
Proof.
  intros Hk Hm Hretry Hfatal. rewrite (retry_loop_prefix k) by done.
  destruct (n - k)%nat as [|m] eqn:E; [lia|].
  cbn [seq fmap list_fmap for_returning]. unfold bind. subst body.
  rewrite attempt_body_spec. unfold outcome in Hfatal.
  replace (attempt_outcome (after_retries base_delay a k st) model_name prompt params 0)
    with (attempt_outcome st model_name prompt params k).
  - by rewrite Hfatal.
  - unfold attempt_outcome. simpl. by rewrite Nat.add_0_r.
Qed.

(** A retryable failure at the last attempt of the budget is re-raised. *)
Lemma retry_loop_exhausted a n st e :
  Z.of_nat (a + S n) = budget ->
  (forall i, (i < n)%nat -> exists e, outcome st i = Retryable e) ->
  outcome st n = Retryable e ->
  for_returning body (Z.of_nat <$> seq a (S n)) st =
  (Raise e, with_calls S (after_retries base_delay a n st)).
Proof.
  intros Hm Hretry Hlast. rewrite (retry_loop_prefix n); [|lia|done|done].
  replace (S n - n)%nat with 1%nat by lia.
  cbn [seq fmap list_fmap for_returning]. unfold bind. subst body.
  rewrite attempt_body_spec. unfold outcome in Hlast.
  replace (attempt_outcome (after_retries base_delay a n st) model_name prompt params 0)
    with (attempt_outcome st model_name prompt params n).
  - rewrite Hlast.
    by assert ((Z.of_nat (a + n) <? budget - 1) = false) as -> by (apply Z.ltb_ge; lia).
  - unfold attempt_outcome. simpl. by rewrite Nat.add_0_r.
Qed.

(** Every run of the loop is one of the three above: some number [k] of
    retries, then the attempt that decides. *)
Lemma retry_loop_cases a n st :
  Z.of_nat (a + S n) = budget ->
  exists k, (k <= n)%nat /\
    (forall i, (i < k)%nat -> exists e, outcome st i = Retryable e) /\
    let st' := with_calls S (after_retries base_delay a k st) in
    match outcome st k with
    | Success r => for_returning body (Z.of_nat <$> seq a (S n)) st = (Ret (Some r), st')
    | Fatal e => for_returning body (Z.of_nat <$> seq a (S n)) st = (Raise e, st')
    | Retryable e =>
        k = n /\ for_returning body (Z.of_nat <$> seq a (S n)) st = (Raise e, st')
    end.
Proof.
  intros Hm.
  assert (forall j, (j <= n)%nat ->
            (forall i, (i < j)%nat -> exists e, outcome st i = Retryable e) \/
            exists k, (k < j)%nat /\
              (forall i, (i < k)%nat -> exists e, outcome st i = Retryable e) /\
              forall e, outcome st k <> Retryable e) as Hscan.
  { induction j as [|j IHj]; intros Hj.
    - left. intros i Hi. lia.
    - destruct IHj as [Hall | (k & Hk & Hpre & Hk')]; [lia| |].
      + destruct (outcome st j) as [r|e|e] eqn:E.
        * right. exists j. split; [lia|]. split; [done|]. by rewrite E.
        * left. intros i Hi. destruct (decide (i = j)) as [->|]; [eauto|].
          apply Hall. lia.
        * right. exists j. split; [lia|]. split; [done|]. by rewrite E.
      + right. exists k. split; [lia|]. done. }
  destruct (Hscan n) as [Hall | (k & Hk & Hpre & Hk')]; [lia| |].
  - exists n. split; [lia|]. split; [done|]. cbv zeta.
    destruct (outcome st n) as [r|e|e] eqn:E.
    + apply retry_loop_success; first [done | lia].
    + split; [done|]. by apply retry_loop_exhausted.
    + apply retry_loop_fatal; first [done | lia].
  - exists k. split; [lia|]. split; [done|]. cbv zeta.
    destruct (outcome st k) as [r|e|e] eqn:E.
    + apply retry_loop_success; first [done | lia].
    + by destruct (Hk' e).
    + apply retry_loop_fatal; first [done | lia].
Qed.

End Loop.


(** ** [_process_task] *)

Lemma classify_Success_inv t r :
  classify t = Success r -> t = Responds r /\ completion_tokens r <> 0.
Proof.
  destruct t as [r'|e]; simpl.
  - destruct (Z.eqb_spec (completion_tokens r') 0); [done|]. by intros [= ->].
  - by destruct e.
Qed.

Lemma classify_Responds_nonzero r :
  completion_tokens r <> 0 -> classify (Responds r) = Success r.
Proof. simpl. by destruct (Z.eqb_spec (completion_tokens r) 0). Qed.

Lemma classify_Responds_zero r :
  completion_tokens r = 0 ->
  classify (Responds r) =
  Retryable (NoContentGeneratedException
               ("completion tokens is 0, content=" +:+ first_content r)).
Proof. simpl. by intros ->. Qed.

Lemma classify_Fatal e :
  (forall m, e <> RateLimitError m) ->
  (forall m, e <> NoContentGeneratedException m) ->
  classify (Throws e) = Fatal e.
Proof. intros H1 H2. destruct e; simpl; try done; [by destruct (H2 msg) | by destruct (H1 msg)]. Qed.

(** The case analysis of [retry_loop_cases] for the budget of ten attempts. *)
Lemma process_task_cases task_id model_name prompt params st :
  exists k, (k <= 9)%nat /\
    (forall i, (i < k)%nat ->
       exists e, classify (attempt_outcome st model_name prompt params i) = Retryable e) /\
    let st' := with_calls S (after_retries retry_delay 0 k st) in
    match classify (attempt_outcome st model_name prompt params k) with
    | Success r =>
        _process_task task_id model_name prompt params st = (Ret (Some r), st')
    | Fatal e =>
        _process_task task_id model_name prompt params st = (Raise e, st')
    | Retryable e =>
        k = 9%nat /\
        _process_task task_id model_name prompt params st = (Raise e, st')
    end.
Proof.
  exact (retry_loop_cases max_retries retry_delay task_id model_name prompt params
           0 9 st eq_refl).
Qed.

Lemma sum_list_app l1 l2 : sum_list (l1 ++ l2) = sum_list l1 + sum_list l2.
Proof.
  unfold sum_list. induction l1 as [|x l1 IH]; [done|].
  cbn [app foldr]. rewrite IH. lia.
Qed.

Lemma sum_list_fmap_le {X} (f g : X -> Z) (l : list X) :
  (forall x, f x <= g x) -> sum_list (f <$> l) <= sum_list (g <$> l).
Proof.
  intros Hfg. unfold sum_list.
  induction l as [|x l IH]; [done|]. cbn [fmap list_fmap foldr] in *.
  specialize (Hfg x). lia.
Qed.

(** The base delays grow linearly, so their sum is a triangular number. *)
Lemma sum_base_delays base_delay k :
  2 * sum_list (base_delays base_delay k) =
  base_delay * Z.of_nat k * (Z.of_nat k + 1).
Proof.
  unfold base_delays, sum_list. induction k as [|k IH]; [simpl; lia|].
  rewrite seq_S, fmap_app, foldr_app. simpl.
  assert (forall (l : list Z) z, foldr Z.add z l = foldr Z.add 0 l + z) as Hacc.
  { induction l as [|x l IHl]; intros z; simpl; [lia|]. rewrite IHl. lia. }
  rewrite Hacc. nia.
Qed.

(** C2.  When the transport raises the rate-limit error on every attempt,
    [_process_task] calls it exactly [max_retries] times, sleeping after
    each attempt but the last, and then re-raises the rate-limit error of
    the last attempt. *)
Theorem process_task_rate_limited_exhausts task_id model_name prompt params st :
  (forall i, (Z.of_nat i < max_retries) ->
     exists m, attempt_outcome st model_name prompt params i = Throws (RateLimitError m)) ->
  exists m st',
    _process_task task_id model_name prompt params st = (Raise (RateLimitError m), st') /\
    attempt_outcome st model_name prompt params (Z.to_nat max_retries - 1)
      = Throws (RateLimitError m) /\
    Z.of_nat (calls st') = Z.of_nat (calls st) + max_retries /\
    Z.of_nat (length (slept st')) = Z.of_nat (length (slept st)) + (max_retries - 1).
Proof.
  intros Hall. unfold max_retries in *.
  destruct (Hall 9%nat) as [m Hm]; [lia|].
  exists m, (with_calls S (after_retries retry_delay 0 9 st)).
  split; [|split; [done|split]].
  - apply (retry_loop_exhausted max_retries retry_delay task_id model_name
             prompt params 0 9 st); [done| |].
    + intros i Hi. destruct (Hall i) as [m' Hm']; [lia|]. rewrite Hm'. simpl. eauto.
    + by rewrite Hm.
  - simpl. lia.
  - simpl. rewrite length_app, backoff_delays_length. lia.
Qed.

(** C3.  [_process_task] returns a response exactly when one of the
    attempts it makes yields a response with a positive completion-token
    count, and it returns that response.  A response with count 0 is never
    returned: it is the retryable [NoContentGeneratedException], followed by
    another attempt unless it came at the last one, where the exception is
    raised.  A response with a positive count at the first attempt is
    returned at once, after one call and without a draw or a sleep. *)
Theorem process_task_success_iff task_id model_name prompt params st :
  (forall i r, attempt_outcome st model_name prompt params i = Responds r ->
     0 <= completion_tokens r) ->
  let out := _process_task task_id model_name prompt params st in
  (forall r, out.1 = Ret (Some r) <->
     exists i, (calls st + i < calls out.2)%nat /\
       attempt_outcome st model_name prompt params i = Responds r /\
       0 < completion_tokens r) /\
  out.1 <> Ret None /\
  (forall i r, (calls st + i < calls out.2)%nat ->
     attempt_outcome st model_name prompt params i = Responds r ->
     completion_tokens r = 0 ->
     out.1 <> Ret (Some r) /\
     ((Z.of_nat i < max_retries - 1) -> (calls st + S i < calls out.2)%nat) /\
     ((Z.of_nat i = max_retries - 1) ->
        out.1 = Raise (NoContentGeneratedException
                         ("completion tokens is 0, content=" +:+ first_content r)))) /\
  (forall r, attempt_outcome st model_name prompt params 0 = Responds r ->
     0 < completion_tokens r ->
     out = (Ret (Some r), with_calls S st)).
Proof.
  intros Hnonneg out.
  destruct (process_task_cases task_id model_name prompt params st)
    as (k & Hk & Hpre & Hlast).
  cbv zeta in Hlast. fold out in Hlast.
  (* an attempt before the deciding one did not respond with tokens *)
  assert (forall i r, (calls st + i < S (calls st + k))%nat ->
            attempt_outcome st model_name prompt params i = Responds r ->
            completion_tokens r <> 0 ->
            i = k /\ classify (attempt_outcome st model_name prompt params k) = Success r)
    as Hdecides.
  { intros i r Hi Hr Hpos. destruct (decide (i = k)) as [->|Hne].
    - split; [done|]. rewrite Hr. by apply classify_Responds_nonzero.
    - destruct (Hpre i) as [e He]; [lia|].
      rewrite Hr, classify_Responds_nonzero in He; done. }
  assert (forall i r, (calls st + i < S (calls st + k))%nat ->
            attempt_outcome st model_name prompt params i = Responds r ->
            completion_tokens r = 0 ->
            i = k -> k = 9%nat /\
              out = (Raise (NoContentGeneratedException
                       ("completion tokens is 0, content=" +:+ first_content r)),
                     with_calls S (after_retries retry_delay 0 k st))) as Hzero.
  { intros i r Hi Hr Hz ->. by rewrite Hr, classify_Responds_zero in Hlast. }
  assert (calls out.2 = S (calls st + k)) as Hcalls.
  { destruct (classify _) as [r|e|e]; [| destruct Hlast as [_ Hlast] |];
      by rewrite Hlast. }
  rewrite Hcalls. split; [|split; [|split]].
  - intros r. split.
    + intros Hret.
      destruct (classify (attempt_outcome st model_name prompt params k))
        as [r0|e|e] eqn:E; [| destruct Hlast as [_ Hlast] |];
        rewrite Hlast in Hret; simpl in Hret; [|done..].
      injection Hret as <-. apply classify_Success_inv in E as [E Hne].
      exists k. split; [lia|]. split; [done|]. specialize (Hnonneg _ _ E). lia.
    + intros (i & Hi & Hr & Hpos).
      destruct (Hdecides i r) as [-> E]; [done|done|lia|].
      rewrite E in Hlast. by rewrite Hlast.
  - destruct (classify _) as [r|e|e]; [| destruct Hlast as [_ Hlast] |];
      by rewrite Hlast.
  - intros i r Hi Hr Hz. split; [|split].
    + intros Hret.
      destruct (classify (attempt_outcome st model_name prompt params k))
        as [r0|e|e] eqn:E; [| destruct Hlast as [_ Hlast] |];
        rewrite Hlast in Hret; simpl in Hret; [|done..].
      injection Hret as <-. apply classify_Success_inv in E as [_ Hne]. done.
    + intros Hi'. destruct (decide (i = k)) as [->|Hne]; [|lia].
      by destruct (Hzero k r) as [-> _].
    + intros Hi'. unfold max_retries in Hi'.
      destruct (Hzero i r) as [_ ->]; try done. lia.
  - intros r Hr Hpos.
    destruct (Hdecides 0%nat r) as [<- E]; [lia|done|lia|].
    rewrite E in Hlast. rewrite Hlast. by rewrite after_retries_0.
Qed.

(** C6.  An exception of the transport that is neither the rate-limit error
    nor the empty-content condition is re-raised by the attempt that meets
    it: no further call, no draw and no sleep follow it.  At the first
    attempt the state is left as it was but for that one call. *)
Theorem process_task_fatal_propagates task_id model_name prompt params st k e :
  (Z.of_nat k < max_retries) ->
  (forall i, (i < k)%nat ->
     exists e', classify (attempt_outcome st model_name prompt params i) = Retryable e') ->
  attempt_outcome st model_name prompt params k = Throws e ->
  (forall m, e <> RateLimitError m) ->
  (forall m, e <> NoContentGeneratedException m) ->
  let out := _process_task task_id model_name prompt params st in
  out.1 = Raise e /\
  calls out.2 = S (calls st + k) /\
  draws out.2 = (draws st + k)%nat /\
  length (slept out.2) = (length (slept st) + k)%nat /\
  (k = 0%nat -> out.2 = with_calls S st).
Proof.
  intros Hk Hpre Hk' Hrl Hnc out.
  assert (out = (Raise e, with_calls S (after_retries retry_delay 0 k st))) as ->.
  { apply (retry_loop_fatal max_retries retry_delay task_id model_name
             prompt params k 0 10 st); try done.
    - unfold max_retries in Hk. lia.
    - rewrite Hk'. by apply classify_Fatal. }
  simpl. repeat split.
  - rewrite length_app, backoff_delays_length. done.
  - intros ->. by rewrite after_retries_0.
Qed.

(** C7.  With [max_retries] = 10 and [retry_delay] = 60: when the attempts
    up to index [i] < [max_retries] - 1 all fail in a retryable way, the
    sleep that follows attempt [i] lasts [retry_delay * (i + 1)] plus the
    value of that attempt's own call of [random.randint(1, 10)], a whole
    number from 1 to 10. *)
Theorem process_task_backoff_delay task_id model_name prompt params st i :
  (forall d, 1 <= randint d 1 10 <= 10) ->
  (Z.of_nat i < max_retries - 1) ->
  (forall j, (j <= i)%nat ->
     exists e, classify (attempt_outcome st model_name prompt params j) = Retryable e) ->
  let out := _process_task task_id model_name prompt params st in
  let jitter := randint (draws st + i)%nat 1 10 in
  slept out.2 !! (length (slept st) + i)%nat
    = Some (retry_delay * (Z.of_nat i + 1) + jitter) /\
  1 <= jitter <= 10 /\
  (draws st + i < draws out.2)%nat /\
  max_retries = 10 /\ retry_delay = 60.
Proof.
  intros Hrange Hi Hretry out jitter.
  destruct (process_task_cases task_id model_name prompt params st)
    as (k & Hk & Hpre & Hlast).
  cbv zeta in Hlast. fold out in Hlast. unfold max_retries in Hi.
  assert (i < k)%nat as Hik.
  { destruct (decide (i < k)%nat) as [|Hge]; [done|]. exfalso.
    destruct (Hretry k) as [e He]; [lia|]. rewrite He in Hlast. lia. }
  assert (out.2 = with_calls S (after_retries retry_delay 0 k st)) as ->.
  { destruct (classify _) as [r|e|e]; [| destruct Hlast as [_ Hlast] |];
      by rewrite Hlast. }
  simpl. repeat split; try apply Hrange; try lia.
  rewrite lookup_app_r by lia.
  replace (length (slept st) + i - length (slept st))%nat with i by lia.
  by rewrite backoff_delays_lookup.
Qed.

(** C8.  When the transport raises the rate-limit error at the first [k]
    attempts, [k] < [max_retries], and then answers with a nonzero
    completion-token count, [_process_task] returns that answer; it has
    slept the [k] backoff delays, the one after attempt [i] being at least
    [retry_delay * (i + 1)], so the time it spent asleep is at least the sum
    of those. *)
Theorem process_task_recovers task_id model_name prompt params st k r :
  (forall d, 1 <= randint d 1 10 <= 10) ->
  (Z.of_nat k < max_retries) ->
  (forall i, (i < k)%nat ->
     exists m, attempt_outcome st model_name prompt params i = Throws (RateLimitError m)) ->
  attempt_outcome st model_name prompt params k = Responds r ->
  0 < completion_tokens r ->
  let out := _process_task task_id model_name prompt params st in
  out.1 = Ret (Some r) /\
  slept out.2 = slept st ++ backoff_delays retry_delay 0 (draws st) k /\
  (forall i, (i < k)%nat ->
     exists d, backoff_delays retry_delay 0 (draws st) k !! i = Some d /\
       retry_delay * (Z.of_nat i + 1) <= d) /\
  total_slept out.2 - total_slept st
    = sum_list (backoff_delays retry_delay 0 (draws st) k) /\
  sum_list (base_delays retry_delay k) <= total_slept out.2 - total_slept st /\
  calls out.2 = S (calls st + k).
Proof.
  intros Hrange Hk Hpre Hr Hpos out.
  assert (out = (Ret (Some r), with_calls S (after_retries retry_delay 0 k st))) as ->.
  { apply (retry_loop_success max_retries retry_delay task_id model_name
             prompt params k 0 10 st); try done.
    - unfold max_retries in Hk. lia.
    - intros i Hi. destruct (Hpre i Hi) as [m ->]. simpl. eauto.
    - rewrite Hr. apply classify_Responds_nonzero. lia. }
  assert (total_slept (with_calls S (after_retries retry_delay 0 k st)) - total_slept st
          = sum_list (backoff_delays retry_delay 0 (draws st) k)) as Htotal.
  { unfold total_slept. simpl. fold (sum_list (slept st ++ backoff_delays retry_delay 0 (draws st) k)).
    rewrite sum_list_app. unfold sum_list. lia. }
  simpl. repeat split; try done.
  - intros i Hi. eexists. split; [by apply backoff_delays_lookup|].
    specialize (Hrange (draws st + i)%nat). simpl. lia.
  - rewrite Htotal. unfold backoff_delays, base_delays.
    apply sum_list_fmap_le. intros i. specialize (Hrange (draws st + i)%nat).
    simpl. lia.
Qed.

(** ** [run] *)

(** The inference touches the counters and the sleep record only. *)
Lemma process_task_frame task_id model_name prompt params st :
  let out := _process_task task_id model_name prompt params st in
  results out.2 = results st /\ code out.2 = code st /\ assigned out.2 = assigned st.
Proof.
  intros out.
  destruct (process_task_cases task_id model_name prompt params st)
    as (k & _ & _ & Hlast).
  cbv zeta in Hlast. fold out in Hlast.
  destruct (classify _) as [r|e|e]; [| destruct Hlast as [_ Hlast] |];
    by rewrite Hlast.
Qed.

Lemma get_python_code_Ret_inv text re fb c :
  _get_python_code text re fb = Ret c -> exists l, findall re text = c :: l.
Proof.
  unfold _get_python_code, re_findall. simpl.
  destruct (findall re text) as [|c' l]; [done|]. intros [= ->]. eauto.
Qed.

(** One pass of the first loop: no exception leaves the [try] statement,
    and the task gets genuine code or the canned program. *)
Lemma task_body_spec kwargs path template task_id t st :
  kwargs !! "prompt_template_path" = Some path ->
  fs !! path = Some template ->
  exists c st1,
    task_body kwargs (task_id, t) st = (Ret tt, st1) /\
    code st1 = <[task_id := c]> (code st) /\
    assigned st1 = assigned st /\
    (c = FAILED_RESPONSE \/ genuine_code kwargs template task_id t st c) /\
    (inference_fails kwargs template task_id t st -> c = FAILED_RESPONSE).
Proof.
  intros Hpath Hfile.
  unfold task_body, getitem, bind, ret. rewrite Hpath. simpl. rewrite Hfile.
  unfold try_except, task_try, getitem, bind, ret, raise, lift, modify.
  destruct (t !! "description") as [description|] eqn:Hd;
    [|by exists FAILED_RESPONSE; eexists; repeat split; auto].
  destruct (str_format template description) as [prompt|e0] eqn:Hf;
    [|by exists FAILED_RESPONSE; eexists; repeat split; auto].
  destruct (kwargs !! "model_name") as [model_name|] eqn:Hm;
    [|by exists FAILED_RESPONSE; eexists; repeat split; auto].
  pose proof (process_task_frame task_id model_name prompt run_inference_params st)
    as (Hres & Hcode & Hassigned).
  destruct (_process_task task_id model_name prompt run_inference_params st)
    as [[[r|]|e1] st1] eqn:Hp; simpl in *.
  - destruct (_get_python_code (first_content r) REGEX_FOR_PY_CODE_EXTRACTION
                FAILED_RESPONSE) as [c|e2] eqn:Hg.
    + exists c. eexists. split; [done|]. simpl. rewrite Hcode, Hassigned.
      split; [done|]. split; [done|]. split.
      * right. apply get_python_code_Ret_inv in Hg as [l Hl].
        exists description, prompt, model_name, r, st1, l. done.
      * intros (d' & p' & m' & e & st' & Hd' & Hf' & Hm' & Hp').
        simplify_eq. congruence.
    + exists FAILED_RESPONSE. eexists. split; [done|]. simpl.
      rewrite Hcode, Hassigned. auto.
  - exists FAILED_RESPONSE. eexists. split; [done|]. simpl.
    rewrite Hcode, Hassigned. auto.
  - exists FAILED_RESPONSE. eexists. split; [done|]. simpl.
    rewrite Hcode, Hassigned. auto.
Qed.

Lemma for_each_app {X} (body : X -> M unit) (l1 l2 : list X) st :
  (for_each body l1 st).1 = Ret tt ->
  for_each body (l1 ++ l2) st = for_each body l2 (for_each body l1 st).2.
Proof.
  revert st; induction l1 as [|x l1 IH]; intros st H; simpl in *; [done|].
  unfold bind in *. destruct (body x st) as [[[]|e] st1]; [|done].
  by apply IH.
Qed.

(** The first loop runs through the whole batch and leaves a code string
    for every task. *)
Lemma first_loop_spec kwargs path template input st :
  kwargs !! "prompt_template_path" = Some path ->
  fs !! path = Some template ->
  exists st',
    for_each (task_body kwargs) input st = (Ret tt, st') /\
    assigned st' = assigned st /\
    (forall task_id, task_id ∉ input.*1 -> code st' !! task_id = code st !! task_id) /\
    (forall task_id, task_id ∈ input.*1 -> is_Some (code st' !! task_id)).
Proof.
  intros Hpath Hfile. revert st.
  induction input as [|[task_id t] input IH]; intros st.
  - exists st. simpl. repeat split; try done. intros ? H. by apply not_elem_of_nil in H.
  - destruct (task_body_spec kwargs path template task_id t st Hpath Hfile)
      as (c & st1 & Hbody & Hcode & Hassigned & _).
    destruct (IH st1) as (st' & Hloop & Hassigned' & Hother & Hin).
    exists st'. cbn [for_each]. unfold bind. rewrite Hbody, Hloop.
    split; [done|]. split; [congruence|]. split.
    + intros id Hid. rewrite fmap_cons, not_elem_of_cons in Hid. destruct Hid as [Hne Hid].
      rewrite (Hother id Hid), Hcode. by rewrite lookup_insert_ne.
    + intros id Hid. rewrite fmap_cons, elem_of_cons in Hid. simpl in Hid.
      destruct (decide (id ∈ input.*1)) as [Hin'|Hnin]; [by apply Hin|].
      destruct Hid as [->|]; [|done].
      rewrite (Hother _ Hnin), Hcode, lookup_insert_eq. eauto.
Qed.

(** The code string of a task is the one its own pass produced. *)
Lemma first_loop_task kwargs path template before task_id t after st :
  kwargs !! "prompt_template_path" = Some path ->
  fs !! path = Some template ->
  task_id ∉ after.*1 ->
  let st_i := (for_each (task_body kwargs) before st).2 in
  let st' := (for_each (task_body kwargs) (before ++ (task_id, t) :: after) st).2 in
  exists c, code st' !! task_id = Some c /\
    (c = FAILED_RESPONSE \/ genuine_code kwargs template task_id t st_i c) /\
    (inference_fails kwargs template task_id t st_i -> c = FAILED_RESPONSE).
Proof.
  intros Hpath Hfile Hnin st_i st'.
  destruct (first_loop_spec kwargs path template before st Hpath Hfile)
    as (st0 & Hbefore & _).
  assert (st_i = st0) as Hst_i by (subst st_i; by rewrite Hbefore).
  destruct (task_body_spec kwargs path template task_id t st0 Hpath Hfile)
    as (c & st1 & Hbody & Hcode & _ & Hc & Hfail).
  destruct (first_loop_spec kwargs path template after st1 Hpath Hfile)
    as (st2 & Hafter & _ & Hother & _).
  assert (st' = st2) as ->.
  { subst st'. rewrite for_each_app by (by rewrite Hbefore).
    rewrite Hbefore. cbn [for_each snd]. unfold bind. by rewrite Hbody, Hafter. }
  exists c. rewrite Hst_i. split; [|done].
  by rewrite (Hother _ Hnin), Hcode, lookup_insert_eq.
Qed.

(** The second loop, for a [code] dictionary that knows every key: one
    assignment per key, in order. *)
Lemma assign_responses_spec task_ids d st :
  (forall task_id, task_id ∈ task_ids -> is_Some (code st !! task_id)) ->
  assign_responses d task_ids st =
  (Ret (foldl (fun d task_id =>
                 setitem_field d task_id "response" (code st !!! task_id)) d task_ids),
   with_assigned
     (fun l => l ++ ((fun task_id => (task_id, code st !!! task_id)) <$> task_ids)) st).
Proof.
  revert d st; induction task_ids as [|task_id task_ids IH]; intros d st Hknown.
  - simpl. unfold ret. f_equal. apply state_eq; simpl; try done. by rewrite app_nil_r.
  - destruct (Hknown task_id) as [c Hc]; [by left|].
    cbn [assign_responses]. unfold bind at 1, assign_response, bind, gets, getitem.
    rewrite Hc. unfold ret, modify.
    rewrite IH by (intros id Hid; apply Hknown; by right).
    simpl. rewrite (lookup_total_correct _ _ _ Hc).
    f_equal. apply state_eq; simpl; try done. by rewrite <- app_assoc.
Qed.

Lemma setitem_fold_cons (g : string -> string) field k (t : task) (d : tasks) task_ids :
  k ∉ task_ids ->
  foldl (fun d task_id => setitem_field d task_id field (g task_id)) ((k, t) :: d) task_ids
  = (k, t) :: foldl (fun d task_id => setitem_field d task_id field (g task_id)) d task_ids.
Proof.
  revert d; induction task_ids as [|id task_ids IH]; intros d Hk; [done|].
  apply not_elem_of_cons in Hk as [Hne Hk]. simpl.
  destruct (decide (k = id)) as [->|_]; [done|]. by apply IH.
Qed.

(** With pairwise distinct keys every assignment of the second loop lands
    on its own task. *)
Lemma setitem_fold_all (g : string -> string) field (d : tasks) :
  NoDup d.*1 ->
  foldl (fun d task_id => setitem_field d task_id field (g task_id)) d d.*1
  = (fun item => (item.1, <[field := g item.1]> item.2)) <$> d.
Proof.
  induction d as [|[k t] d IH]; intros Hnd; [done|].
  rewrite fmap_cons in Hnd. apply NoDup_cons in Hnd as [Hk Hnd].
  cbn [fmap list_fmap foldl fst snd setitem_field].
  rewrite decide_True by done.
  rewrite setitem_fold_cons by done. by rewrite IH.
Qed.

(** C5.  With a model name and an existing prompt template configured,
    [run] returns normally on every batch, whatever the transport does, and
    hands back the batch with the response field of every task set.  The
    field of a task is assigned once, by the one pass of the second loop
    that bears its key.  The value is the first block captured from the
    text the inference returned for this task, or else the canned program;
    it is the canned program whenever the inference for this task ended in
    an exception, and the tasks before and after it are processed all the
    same. *)
Theorem run_sets_each_response_once input kwargs st model_name path template :
  NoDup input.*1 ->
  kwargs !! "model_name" = Some model_name ->
  kwargs !! "prompt_template_path" = Some path ->
  fs !! path = Some template ->
  exists st',
    run input kwargs st = (Ret (with_responses (code st') input), st') /\
    assigned st' =
      assigned st ++ ((fun task_id => (task_id, code st' !!! task_id)) <$> input.*1) /\
    (forall before task_id t after,
       input = before ++ (task_id, t) :: after ->
       exists c, code st' !! task_id = Some c /\
         with_responses (code st') input !! length before
           = Some (task_id, <["response" := c]> t) /\
         (c = FAILED_RESPONSE \/
          genuine_code kwargs template task_id t (state_before kwargs before st) c) /\
         (inference_fails kwargs template task_id t (state_before kwargs before st) ->
          c = FAILED_RESPONSE)).
Proof.
  intros Hnd Hmodel Hpath Hfile.
  destruct (first_loop_spec kwargs path template input (reset_locals st) Hpath Hfile)
    as (st1 & Hloop & Hassigned & _ & Hknown).
  set (st' := with_assigned
                (fun l => l ++ ((fun task_id => (task_id, code st1 !!! task_id))
                                  <$> input.*1)) st1).
  assert (run input kwargs st = (Ret (with_responses (code st') input), st')) as Hrun.
  { unfold run. rewrite Hmodel. unfold bind, modify.
    fold (reset_locals st). rewrite Hloop.
    rewrite assign_responses_spec by done.
    by rewrite setitem_fold_all. }
  exists st'. split; [done|]. split; [subst st'; simpl; by rewrite Hassigned|].
  intros before task_id t after ->.
  rewrite fmap_app, fmap_cons in Hnd. apply NoDup_app in Hnd as (_ & _ & Hnd).
  apply NoDup_cons in Hnd as [Hnin _].
  destruct (first_loop_task kwargs path template before task_id t after
              (reset_locals st) Hpath Hfile Hnin) as (c & Hc & Hkind & Hfail).
  rewrite Hloop in Hc. exists c. split; [done|]. split; [|done].
  unfold with_responses. rewrite list_lookup_fmap, list_lookup_middle by done.
  simpl. by rewrite (lookup_total_correct _ _ _ Hc).
Qed.

(** C9, as the code has it.  When the prompt template file is absent and
    the batch holds at least one task, [run] raises [FileNotFoundError] at
    the first task, outside the [try] statement: the transport is not
    called and no response field is assigned. *)
Theorem run_template_missing input kwargs st model_name path :
  input <> [] ->
  kwargs !! "model_name" = Some model_name ->
  kwargs !! "prompt_template_path" = Some path ->
  fs !! path = None ->
  exists msg st',
    run input kwargs st = (Raise (FileNotFoundError msg), st') /\
    assigned st' = assigned st /\
    calls st' = calls st /\
    code st' = ∅.
Proof.
  intros Hne Hmodel Hpath Hfile. destruct input as [|[task_id t] input]; [done|].
  eexists. exists (reset_locals st). split; [|done].
  unfold run. rewrite Hmodel. unfold bind, modify. cbn [for_each].
  unfold bind, task_body, getitem, bind, ret. rewrite Hpath. simpl. rewrite Hfile.
  reflexivity.
Qed.

(** ** More on the extractor *)

(** The scan at the first block: it captures the body and goes on after the
    closing fence. *)
Lemma scan_first_block_tail re fuel s pre body rest :
  first_block re s pre body rest ->
  (String.length pre < fuel)%nat ->
  scan fuel re s = body :: scan (fuel - S (String.length pre)) re rest.
Proof.
  intros (-> & Hpre & Hc). revert fuel.
  induction pre as [|a pre IH]; intros fuel Hfuel.
  - destruct fuel as [|fuel]; [simpl in Hfuel; lia|]. simpl.
    rewrite match_at_exact by done. by rewrite Nat.sub_0_r.
  - destruct fuel as [|fuel]; [lia|]. simpl in Hfuel.
    apply no_start_within_inv in Hpre as [Hhd Htl].
    cbn [scan]. rewrite match_at_no_opening.
    + simpl. apply IH; [done | lia].
    + intros Hb. apply Hhd.
      by apply (begins_with_tail _ _ (body +:+ closing re +:+ rest)).
Qed.

(** A literal that begins nowhere inside [pre] occurs no further left than
    just after [pre]. *)
Lemma no_start_within_leftmost lit pre tail pre' post' :
  no_start_within lit pre ->
  pre +:+ lit +:+ tail = pre' +:+ lit +:+ post' ->
  (String.length pre <= String.length pre')%nat.
Proof.
  intros Hpre Htext.
  destruct (decide (String.length pre' < String.length pre)%nat) as [Hlt|]; [|lia].
  exfalso. symmetry in Htext.
  destruct (app_split_s _ _ _ _ Htext) as (x & -> & Hx); [lia|].
  apply (Hpre pre' x); [done| |].
  - intros ->. rewrite app_empty_r in Hlt. lia.
  - apply (begins_with_tail _ _ tail). by exists post'.
Qed.

(** A way to see that a literal begins nowhere inside [pre]: its first
    character does not occur in [pre]. *)
Lemma no_start_within_fresh a lit pre :
  contains_b (String a EmptyString) pre = false ->
  no_start_within (String a lit) pre.
Proof.
  intros Hfresh p1 p2 -> Hne [r Hr].
  destruct p2 as [|b p2]; [done|]. simpl in Hr. injection Hr as -> _.
  assert (contains_b (String a EmptyString) (p1 +:+ String a p2) = true) as Hin.
  { apply contains_b_complete. by exists p1, p2. }
  congruence.
Qed.

(** X1.  [findall] works block by block: on a text cut at its first block
    it lists the body of that block and then what it finds in the text
    after the closing fence, so captures never overlap and nothing before
    the first block or inside it is searched again. *)
Theorem findall_first_block re text pre body rest :
  opening re <> EmptyString ->
  first_block re text pre body rest ->
  findall re text = body :: findall re rest.
Proof.
  intros Hop Hfirst. unfold findall.
  rewrite (scan_first_block_tail re _ text pre body rest Hfirst).
  - f_equal. destruct Hfirst as (-> & _). apply scan_fuel; [done| |lia].
    rewrite !length_app_s.
    destruct (opening re) as [|a p]; [done|]. simpl. lia.
  - destruct Hfirst as (-> & _). rewrite length_app_s. lia.
Qed.

(** X2.  The two outcomes of the extractor: it returns [c] exactly when [c]
    is the body of the first block of the text, and it raises exactly when
    the text holds no block, the exception being the [IndexError] of
    [matches[0]].  The value of [failure_response] plays no part. *)
Theorem get_python_code_outcomes re text failure_response :
  (forall c,
     _get_python_code text re failure_response = Ret c <->
     exists pre rest, first_block re text pre c rest) /\
  (forall e,
     _get_python_code text re failure_response = Raise e <->
     ~ has_block re text /\ e = IndexError "list index out of range").
Proof.
  split.
  - intros c. split.
    + intros [l Hl]%get_python_code_Ret_inv.
      by apply scan_head_sound in Hl.
    + intros (pre & rest & Hfirst).
      destruct (scan_first_block re (S (String.length text)) text pre c rest Hfirst)
        as [l Hl].
      * destruct Hfirst as (-> & _). rewrite length_app_s. lia.
      * by apply (getitem0_findall_cons _ _ _ _ l).
  - intros e. split.
    + intros Hraise.
      destruct (findall re text) as [|c l] eqn:E.
      * rewrite (getitem0_findall_nil _ _ _ E) in Hraise. injection Hraise as <-.
        split; [|done]. intros Hblock.
        by apply (scan_block_nonempty re (S (String.length text)) text Hblock);
          [lia|].
      * by rewrite (getitem0_findall_cons _ _ _ _ _ E) in Hraise.
    + intros [Hno ->]. apply getitem0_findall_nil. by apply findall_no_block.
Qed.

(** X3.  What the extractor returns stood in the text between an opening
    and a closing fence, and the closing fence occurs nowhere in it: the
    extracted code never holds a triple backtick. *)
Theorem get_python_code_no_fence_inside re text failure_response c :
  closing re <> EmptyString ->
  _get_python_code text re failure_response = Ret c ->
  (exists pre rest, text = pre +:+ opening re +:+ c +:+ closing re +:+ rest) /\
  ~ (exists u v, c = u +:+ closing re +:+ v).
Proof.
  intros Hclose [l Hl]%get_python_code_Ret_inv.
  apply scan_head_sound in Hl as (pre & rest & Htext & _ & Hbody).
  split; [by exists pre, rest|].
  intros (u & v & ->).
  apply (Hbody u (closing re +:+ v)); [done| |].
  - destruct (closing re); [done | discriminate].
  - exists (v +:+ closing re). by rewrite app_assoc_s.
Qed.

(** X4.  An answer cut off inside its first block: when the leftmost
    opening fence is followed by no closing fence at all, nothing is
    captured and the extractor raises [IndexError]. *)
Theorem get_python_code_unclosed re pre tail failure_response :
  no_start_within (opening re) pre ->
  ~ (exists u v, tail = u +:+ closing re +:+ v) ->
  _get_python_code (pre +:+ opening re +:+ tail) re failure_response
  = Raise (IndexError "list index out of range").
Proof.
  intros Hpre Hclose. apply getitem0_findall_nil, findall_no_block.
  intros (pre' & body' & rest' & Htext).
  pose proof (no_start_within_leftmost _ _ _ _ _ Hpre Htext) as Hlen.
  destruct (app_split_s _ _ _ _ Htext Hlen) as (x & -> & Hx).
  apply Hclose.
  assert (opening re +:+ tail
          = (x +:+ opening re +:+ body') +:+ closing re +:+ rest') as Hx'.
  { rewrite Hx. by rewrite !app_assoc_s. }
  destruct (app_split_s _ _ _ _ Hx') as (y & _ & ->).
  - rewrite !length_app_s. lia.
  - by exists y, rest'.
Qed.

(** ** More on [_process_task] *)

(** Every invocation ends after some number [k] of retries, at most nine,
    with one more call. *)
Lemma process_task_shape task_id model_name prompt params st :
  let out := _process_task task_id model_name prompt params st in
  exists k, (k <= 9)%nat /\
    out.2 = with_calls S (after_retries retry_delay 0 k st) /\
    out.1 <> Ret None.
Proof.
  intros out.
  destruct (process_task_cases task_id model_name prompt params st)
    as (k & Hk & _ & Hlast).
  cbv zeta in Hlast. fold out in Hlast. exists k. split; [done|].
  destruct (classify _) as [r|e|e]; [| destruct Hlast as [_ Hlast] |];
    by rewrite Hlast.
Qed.

(** The largest delays the jitter allows, and their sum. *)
Lemma sum_backoff_delays_le base_delay d k :
  (forall i, 1 <= randint i 1 10 <= 10) ->
  0 <= sum_list (backoff_delays base_delay 0 d k)
       - sum_list (base_delays base_delay k) <= 10 * Z.of_nat k.
Proof.
  intros Hrange. unfold backoff_delays, base_delays, sum_list.
  induction k as [|k IH]; [simpl; lia|].
  rewrite seq_S, !fmap_app, !foldr_app. simpl.
  assert (forall (l : list Z) z, foldr Z.add z l = foldr Z.add 0 l + z) as Hacc.
  { induction l as [|x l IHl]; intros z; simpl; [lia|]. rewrite IHl. lia. }
  rewrite (Hacc _ (_ + 0)), (Hacc _ (_ + 0)). simpl in IH.
  specialize (Hrange (d + k)%nat). lia.
Qed.

(** X5.  When each of the ten attempts fails in a way worth retrying, an
    empty completion or a rate-limit error in any mix, [_process_task] makes
    exactly ten calls, sleeps and draws nine times and raises the exception
    of the tenth attempt; the earlier causes are dropped. *)
Theorem process_task_exhausts_any_mix task_id model_name prompt params st :
  (forall i, (i < 10)%nat ->
     exists e, classify (attempt_outcome st model_name prompt params i) = Retryable e) ->
  exists e st',
    classify (attempt_outcome st model_name prompt params 9) = Retryable e /\
    _process_task task_id model_name prompt params st = (Raise e, st') /\
    calls st' = (calls st + 10)%nat /\
    draws st' = (draws st + 9)%nat /\
    length (slept st') = (length (slept st) + 9)%nat.
Proof.
  intros Hall. destruct (Hall 9%nat) as [e He]; [lia|].
  exists e, (with_calls S (after_retries retry_delay 0 9 st)).
  split; [done|]. split.
  - apply (retry_loop_exhausted max_retries retry_delay task_id model_name
             prompt params 0 9 st); [done| |done].
    intros i Hi. apply Hall. lia.
  - simpl. rewrite length_app, backoff_delays_length. lia.
Qed.

(** X6.  After [k] < 10 retryable failures of either kind, an answer whose
    completion-token count differs from 0 is returned: the test of the code
    is [== 0], so even a negative count passes.  By then [k + 1] calls, [k]
    draws and the [k] backoff sleeps have been made. *)
Theorem process_task_recovers_any_mix task_id model_name prompt params st k r :
  (k < 10)%nat ->
  (forall i, (i < k)%nat ->
     exists e, classify (attempt_outcome st model_name prompt params i) = Retryable e) ->
  attempt_outcome st model_name prompt params k = Responds r ->
  completion_tokens r <> 0 ->
  let out := _process_task task_id model_name prompt params st in
  out.1 = Ret (Some r) /\
  calls out.2 = S (calls st + k) /\
  draws out.2 = (draws st + k)%nat /\
  slept out.2 = slept st ++ backoff_delays retry_delay 0 (draws st) k.
Proof.
  intros Hk Hpre Hr Hne out.
  assert (out = (Ret (Some r), with_calls S (after_retries retry_delay 0 k st))) as ->.
  { apply (retry_loop_success max_retries retry_delay task_id model_name
             prompt params k 0 10 st); try done.
    rewrite Hr. by apply classify_Responds_nonzero. }
  done.
Qed.

(** X7.  Whatever the transport does, one invocation makes at least one and
    at most ten calls, and between two calls it draws one random number and
    sleeps once: the numbers of draws and of sleeps are both one less than
    the number of calls.  It never runs off the end of its loop, and it
    leaves the dictionaries of [run] alone. *)
Theorem process_task_accounting task_id model_name prompt params st :
  let out := _process_task task_id model_name prompt params st in
  exists k, (k <= 9)%nat /\
    calls out.2 = S (calls st + k) /\
    draws out.2 = (draws st + k)%nat /\
    slept out.2 = slept st ++ backoff_delays retry_delay 0 (draws st) k /\
    length (backoff_delays retry_delay 0 (draws st) k) = k /\
    out.1 <> Ret None /\
    results out.2 = results st /\ code out.2 = code st /\
    assigned out.2 = assigned st.
Proof.
  intros out.
  destruct (process_task_shape task_id model_name prompt params st)
    as (k & Hk & Hst & Hnone).
  fold out in Hst, Hnone. exists k. rewrite Hst. simpl.
  repeat split; try done. apply backoff_delays_length.
Qed.

(** The time one invocation spends asleep, for a jitter within its bounds. *)
Lemma process_task_slept_total task_id model_name prompt params st :
  (forall i, 1 <= randint i 1 10 <= 10) ->
  let out := _process_task task_id model_name prompt params st in
  0 <= total_slept out.2 - total_slept st <= 2790.
Proof.
  intros Hrange out.
  destruct (process_task_shape task_id model_name prompt params st)
    as (k & Hk & Hst & _).
  fold out in Hst. rewrite Hst.
  unfold total_slept. simpl.
  fold (sum_list (slept st ++ backoff_delays retry_delay 0 (draws st) k)).
  fold (sum_list (slept st)). rewrite sum_list_app.
  pose proof (sum_backoff_delays_le retry_delay (draws st) k Hrange) as Hsum.
  pose proof (sum_base_delays retry_delay k) as Hbase.
  unfold retry_delay in *. nia.
Qed.

(** X8.  With the jitter within 1 to 10, one invocation spends at most
    2790 seconds asleep (nine delays of at most 60 * (i + 1) + 10), and each
    delay is longer than the one before it, by 51 to 69 seconds. *)
Theorem process_task_sleep_bound task_id model_name prompt params st :
  (forall i, 1 <= randint i 1 10 <= 10) ->
  let out := _process_task task_id model_name prompt params st in
  0 <= total_slept out.2 - total_slept st <= 2790 /\
  (forall i d1 d2,
     slept out.2 !! (length (slept st) + i)%nat = Some d1 ->
     slept out.2 !! (length (slept st) + S i)%nat = Some d2 ->
     d1 + 51 <= d2 <= d1 + 69).
Proof.
  intros Hrange out. split; [by apply process_task_slept_total|].
  destruct (process_task_shape task_id model_name prompt params st)
    as (k & Hk & Hst & _).
  fold out in Hst. rewrite Hst.
  simpl. intros i d1 d2 H1 H2.
  rewrite lookup_app_r in H1, H2 by lia.
  replace (length (slept st) + i - length (slept st))%nat with i in H1 by lia.
  replace (length (slept st) + S i - length (slept st))%nat with (S i) in H2 by lia.
  assert (S i < k)%nat as Hi.
  { apply lookup_lt_Some in H2. by rewrite backoff_delays_length in H2. }
  rewrite backoff_delays_lookup in H1, H2 by lia.
  injection H1 as <-. injection H2 as <-.
  pose proof (Hrange (draws st + i)%nat). pose proof (Hrange (draws st + S i)%nat).
  unfold retry_delay. simpl. lia.
Qed.

(** ** More on [run] *)

(** One pass of the first loop when no prompt can be built: the task has no
    description, or formatting the template raises. *)
Lemma task_body_no_prompt kwargs path template task_id t st :
  kwargs !! "prompt_template_path" = Some path ->
  fs !! path = Some template ->
  (t !! "description" = None \/
   exists d e, t !! "description" = Some d /\ str_format template d = Raise e) ->
  task_body kwargs (task_id, t) st
  = (Ret tt, with_code <[task_id := FAILED_RESPONSE]> st).
Proof.
  intros Hpath Hfile Hno.
  unfold task_body, getitem, bind, ret. rewrite Hpath. simpl. rewrite Hfile.
  unfold try_except, task_try, getitem, bind, ret, raise, lift, modify.
  by destruct Hno as [-> | (d & e & -> & ->)].
Qed.

(** One pass of the first loop when the inference is reached: what is kept
    for the task follows from the outcome of the inference alone. *)
Lemma task_body_inferred kwargs path template model_name task_id t d prompt st :
  kwargs !! "prompt_template_path" = Some path ->
  fs !! path = Some template ->
  kwargs !! "model_name" = Some model_name ->
  t !! "description" = Some d ->
  str_format template d = Ret prompt ->
  let out := _process_task task_id model_name prompt run_inference_params st in
  task_body kwargs (task_id, t) st =
  (Ret tt,
   match out.1 with
   | Ret (Some r) =>
       with_code
         <[task_id := match findall REGEX_FOR_PY_CODE_EXTRACTION (first_content r) with
                      | c :: _ => c
                      | [] => FAILED_RESPONSE
                      end]>
         (with_results <[task_id := first_content r]> out.2)
   | _ => with_code <[task_id := FAILED_RESPONSE]> out.2
   end).
Proof.
  intros Hpath Hfile Hmodel Hd Hf out. subst out.
  unfold task_body, getitem, bind, ret. rewrite Hpath. simpl. rewrite Hfile.
  unfold try_except, task_try, getitem, bind, ret, raise, lift, modify.
  rewrite Hd, Hf, Hmodel.
  destruct (_process_task task_id model_name prompt run_inference_params st)
    as [[[r|]|e] st1]; simpl; [|done..].
  unfold _get_python_code, re_findall. simpl.
  by destruct (findall REGEX_FOR_PY_CODE_EXTRACTION (first_content r)).
Qed.

(** What one pass costs: at most ten calls and, for a jitter within its
    bounds, at most 2790 seconds of sleep. *)
Lemma task_body_cost kwargs path template task_id t st :
  kwargs !! "prompt_template_path" = Some path ->
  fs !! path = Some template ->
  exists st1,
    task_body kwargs (task_id, t) st = (Ret tt, st1) /\
    (calls st <= calls st1 <= calls st + 10)%nat /\
    ((forall i, 1 <= randint i 1 10 <= 10) ->
     0 <= total_slept st1 - total_slept st <= 2790).
Proof.
  intros Hpath Hfile.
  assert (forall st0, exists st1,
            (Ret tt, with_code <[task_id := FAILED_RESPONSE]> st0) = (Ret tt, st1) /\
            calls st1 = calls st0 /\ total_slept st1 = total_slept st0) as Hcode.
  { intros st0. eexists. by split. }
  destruct (t !! "description") as [d|] eqn:Hd.
  2:{ exists (with_code <[task_id := FAILED_RESPONSE]> st).
      split; [apply (task_body_no_prompt _ path template); auto|].
      unfold total_slept. simpl. split; lia. }
  destruct (str_format template d) as [prompt|e] eqn:Hf.
  2:{ exists (with_code <[task_id := FAILED_RESPONSE]> st).
      split; [apply (task_body_no_prompt _ path template); eauto|].
      unfold total_slept. simpl. split; lia. }
  destruct (kwargs !! "model_name") as [model_name|] eqn:Hm.
  2:{ exists (with_code <[task_id := FAILED_RESPONSE]> st). split.
      - unfold task_body, getitem, bind, ret. rewrite Hpath. simpl. rewrite Hfile.
        unfold try_except, task_try, getitem, bind, ret, raise, lift, modify.
        by rewrite Hd, Hf, Hm.
      - unfold total_slept. simpl. split; lia. }
  eexists. split.
  { by apply (task_body_inferred kwargs path template model_name task_id t d prompt). }
  destruct (process_task_shape task_id model_name prompt run_inference_params st)
    as (k & Hk & Hst & _).
  pose proof (process_task_slept_total task_id model_name prompt run_inference_params st)
    as Hslept.
  cbv zeta in Hslept.
  set (out := _process_task task_id model_name prompt run_inference_params st) in *.
  assert (calls out.2 = S (calls st + k)) as Hcalls by (by rewrite Hst).
  destruct out.1 as [[r|]|e]; unfold total_slept in *; simpl; (split; [lia|done]).
Qed.

(** The first loop as a whole costs at most that much per task. *)
Lemma first_loop_cost kwargs path template input st :
  kwargs !! "prompt_template_path" = Some path ->
  fs !! path = Some template ->
  exists st',
    for_each (task_body kwargs) input st = (Ret tt, st') /\
    (calls st <= calls st' <= calls st + 10 * length input)%nat /\
    ((forall i, 1 <= randint i 1 10 <= 10) ->
     0 <= total_slept st' - total_slept st <= 2790 * Z.of_nat (length input)).
Proof.
  intros Hpath Hfile. revert st.
  induction input as [|[task_id t] input IH]; intros st.
  - exists st. simpl. split; [done|]. split; lia.
  - destruct (task_body_cost kwargs path template task_id t st Hpath Hfile)
      as (st1 & Hbody & Hcalls & Hslept).
    destruct (IH st1) as (st' & Hloop & Hcalls' & Hslept').
    exists st'. cbn [for_each]. unfold bind. rewrite Hbody, Hloop.
    split; [done|]. split; [simpl; lia|].
    intros Hrange. specialize (Hslept Hrange). specialize (Hslept' Hrange).
    simpl length. lia.
Qed.

(** [run] under a valid configuration: the first loop ends normally and
    the second writes the code it left into the batch. *)
Lemma run_state input kwargs st model_name path template :
  kwargs !! "model_name" = Some model_name ->
  kwargs !! "prompt_template_path" = Some path ->
  fs !! path = Some template ->
  exists st1 d,
    for_each (task_body kwargs) input (reset_locals st) = (Ret tt, st1) /\
    run input kwargs st =
    (Ret d,
     with_assigned
       (fun l => l ++ ((fun task_id => (task_id, code st1 !!! task_id)) <$> input.*1))
       st1) /\
    (NoDup input.*1 -> d = with_responses (code st1) input).
Proof.
  intros Hmodel Hpath Hfile.
  destruct (first_loop_spec kwargs path template input (reset_locals st) Hpath Hfile)
    as (st1 & Hloop & _ & _ & Hknown).
  exists st1. eexists. split; [done|]. split.
  - unfold run. rewrite Hmodel. unfold bind, modify.
    fold (reset_locals st). rewrite Hloop.
    by rewrite assign_responses_spec.
  - intros Hnd. by rewrite setitem_fold_all.
Qed.

(** The response of a task in the result of [run] is the code its own pass
    through the first loop stored. *)
Lemma run_at_task input kwargs st model_name path template before task_id t after :
  NoDup input.*1 ->
  kwargs !! "model_name" = Some model_name ->
  kwargs !! "prompt_template_path" = Some path ->
  fs !! path = Some template ->
  input = before ++ (task_id, t) :: after ->
  exists st1 out st',
    task_body kwargs (task_id, t) (state_before kwargs before st) = (Ret tt, st1) /\
    run input kwargs st = (Ret out, st') /\
    forall c, code st1 !! task_id = Some c ->
      out !! length before = Some (task_id, <["response" := c]> t).
Proof.
  intros Hnd Hmodel Hpath Hfile ->.
  destruct (run_state (before ++ (task_id, t) :: after) kwargs st model_name path
              template Hmodel Hpath Hfile) as (st2 & d & Hloop & Hrun & Hd).
  rewrite (Hd Hnd) in Hrun.
  rewrite fmap_app, fmap_cons in Hnd. apply NoDup_app in Hnd as (_ & _ & Hnd).
  apply NoDup_cons in Hnd as [Hnin _].
  destruct (first_loop_spec kwargs path template before (reset_locals st) Hpath Hfile)
    as (st0 & Hbefore & _).
  assert (state_before kwargs before st = st0) as ->
    by (unfold state_before; by rewrite Hbefore).
  destruct (task_body_spec kwargs path template task_id t st0 Hpath Hfile)
    as (c0 & st1 & Hbody & _).
  destruct (first_loop_spec kwargs path template after st1 Hpath Hfile)
    as (st2' & Hafter & _ & Hother & _).
  assert (st2 = st2') as <-.
  { rewrite for_each_app in Hloop by (by rewrite Hbefore).
    rewrite Hbefore in Hloop. cbn [for_each snd] in Hloop. unfold bind in Hloop.
    rewrite Hbody, Hafter in Hloop. congruence. }
  exists st1. do 2 eexists. split; [done|]. split; [done|].
  intros c Hc. unfold with_responses.
  rewrite list_lookup_fmap, list_lookup_middle by done. simpl.
  rewrite <- (Hother task_id Hnin) in Hc. by rewrite (lookup_total_correct _ _ _ Hc).
Qed.

(** X9.  Under a valid configuration [run] hands the batch back with the
    same task ids in the same order.  In every task the response field is
    present afterwards, whether or not the task came with one, and every
    other field has the value it came with. *)
Theorem run_preserves_batch input kwargs st model_name path template :
  NoDup input.*1 ->
  kwargs !! "model_name" = Some model_name ->
  kwargs !! "prompt_template_path" = Some path ->
  fs !! path = Some template ->
  exists out st',
    run input kwargs st = (Ret out, st') /\
    out.*1 = input.*1 /\
    forall i task_id t, input !! i = Some (task_id, t) ->
      exists t', out !! i = Some (task_id, t') /\
        t' !! "response" = Some (code st' !!! task_id) /\
        forall field, field <> "response" -> t' !! field = t !! field.
Proof.
  intros Hnd Hmodel Hpath Hfile.
  destruct (run_state input kwargs st model_name path template Hmodel Hpath Hfile)
    as (st1 & d & _ & Hrun & Hd).
  rewrite (Hd Hnd) in Hrun. do 2 eexists. split; [exact Hrun|]. split.
  - unfold with_responses. rewrite <- list_fmap_compose. by apply list_fmap_ext.
  - intros i task_id t Hi. eexists. split.
    + unfold with_responses. by rewrite list_lookup_fmap, Hi.
    + simpl. split; [by rewrite lookup_insert_eq|].
      intros field Hne. by rewrite lookup_insert_ne.
Qed.

(** X10.  When the inference for a task returns a text that holds a block,
    the response of that task is the body of the first block, whatever
    happened to the tasks before it and whatever happens to those after. *)
Theorem run_returns_first_block input kwargs st model_name path template
    before task_id t after c :
  NoDup input.*1 ->
  kwargs !! "model_name" = Some model_name ->
  kwargs !! "prompt_template_path" = Some path ->
  fs !! path = Some template ->
  input = before ++ (task_id, t) :: after ->
  genuine_code kwargs template task_id t (state_before kwargs before st) c ->
  exists out st',
    run input kwargs st = (Ret out, st') /\
    out !! length before = Some (task_id, <["response" := c]> t).
Proof.
  intros Hnd Hmodel Hpath Hfile Hinput
    (d & prompt & m & r & st_r & l & Hd & Hf & Hm & Hp & Hl).
  destruct (run_at_task input kwargs st model_name path template before task_id t
              after Hnd Hmodel Hpath Hfile Hinput) as (st1 & out & st' & Hbody & Hrun & Hc).
  exists out, st'. split; [done|]. apply Hc.
  rewrite (task_body_inferred kwargs path template m task_id t d prompt) in Hbody
    by done.
  cbv zeta in Hbody. rewrite Hp in Hbody. simpl in Hbody. rewrite Hl in Hbody.
  injection Hbody as <-. simpl. by rewrite lookup_insert_eq.
Qed.

(** X11.  When the inference for a task returns a text that holds no block,
    the [IndexError] of the extractor is caught by the handler of the task
    and the response is the canned program: inside [run] the missing
    fallback of [_get_python_code] does not show. *)
Theorem run_no_block_falls_back input kwargs st model_name path template
    before task_id t after d prompt r st_r :
  NoDup input.*1 ->
  kwargs !! "model_name" = Some model_name ->
  kwargs !! "prompt_template_path" = Some path ->
  fs !! path = Some template ->
  input = before ++ (task_id, t) :: after ->
  t !! "description" = Some d ->
  str_format template d = Ret prompt ->
  _process_task task_id model_name prompt run_inference_params
    (state_before kwargs before st) = (Ret (Some r), st_r) ->
  ~ has_block REGEX_FOR_PY_CODE_EXTRACTION (first_content r) ->
  exists out st',
    run input kwargs st = (Ret out, st') /\
    out !! length before = Some (task_id, <["response" := FAILED_RESPONSE]> t).
Proof.
  intros Hnd Hmodel Hpath Hfile Hinput Hd Hf Hp Hno.
  destruct (run_at_task input kwargs st model_name path template before task_id t
              after Hnd Hmodel Hpath Hfile Hinput) as (st1 & out & st' & Hbody & Hrun & Hc).
  exists out, st'. split; [done|]. apply Hc.
  rewrite (task_body_inferred kwargs path template model_name task_id t d prompt)
    in Hbody by done.
  cbv zeta in Hbody. rewrite Hp in Hbody. simpl in Hbody.
  rewrite (findall_no_block _ _ Hno) in Hbody.
  injection Hbody as <-. simpl. by rewrite lookup_insert_eq.
Qed.

(** X12.  A task without a description, or one whose description the
    template cannot be formatted with, gets the canned program without any
    call of the transport, any draw or any sleep: the next task starts with
    the counters where this one found them. *)
Theorem run_task_without_prompt input kwargs st model_name path template
    before task_id t after :
  NoDup input.*1 ->
  kwargs !! "model_name" = Some model_name ->
  kwargs !! "prompt_template_path" = Some path ->
  fs !! path = Some template ->
  input = before ++ (task_id, t) :: after ->
  (t !! "description" = None \/
   exists d e, t !! "description" = Some d /\ str_format template d = Raise e) ->
  (exists out st',
     run input kwargs st = (Ret out, st') /\
     out !! length before = Some (task_id, <["response" := FAILED_RESPONSE]> t)) /\
  calls (state_before kwargs (before ++ [(task_id, t)]) st)
    = calls (state_before kwargs before st) /\
  draws (state_before kwargs (before ++ [(task_id, t)]) st)
    = draws (state_before kwargs before st) /\
  slept (state_before kwargs (before ++ [(task_id, t)]) st)
    = slept (state_before kwargs before st).
Proof.
  intros Hnd Hmodel Hpath Hfile Hinput Hno.
  pose proof (task_body_no_prompt kwargs path template task_id t
                (state_before kwargs before st) Hpath Hfile Hno) as Hfail.
  split.
  - destruct (run_at_task input kwargs st model_name path template before task_id t
                after Hnd Hmodel Hpath Hfile Hinput)
      as (st1 & out & st' & Hbody & Hrun & Hc).
    exists out, st'. split; [done|]. apply Hc.
    rewrite Hfail in Hbody. injection Hbody as <-. simpl. by rewrite lookup_insert_eq.
  - destruct (first_loop_spec kwargs path template before (reset_locals st) Hpath Hfile)
      as (st0 & Hbefore & _).
    assert (state_before kwargs (before ++ [(task_id, t)]) st
            = with_code <[task_id := FAILED_RESPONSE]> (state_before kwargs before st))
      as ->; [|done].
    unfold state_before in *. rewrite for_each_app by (by rewrite Hbefore).
    cbn [for_each]. unfold bind. by rewrite Hfail.
Qed.

(** X13.  Under a valid configuration the whole run makes at most ten
    calls of the transport per task and, for a jitter within its bounds,
    sleeps at most 2790 seconds per task. *)
Theorem run_cost input kwargs st model_name path template :
  kwargs !! "model_name" = Some model_name ->
  kwargs !! "prompt_template_path" = Some path ->
  fs !! path = Some template ->
  let out := run input kwargs st in
  (calls st <= calls out.2 <= calls st + 10 * length input)%nat /\
  ((forall i, 1 <= randint i 1 10 <= 10) ->
   0 <= total_slept out.2 - total_slept st <= 2790 * Z.of_nat (length input)).
Proof.
  intros Hmodel Hpath Hfile out.
  destruct (run_state input kwargs st model_name path template Hmodel Hpath Hfile)
    as (st1 & d & Hloop & Hrun & _).
  destruct (first_loop_cost kwargs path template input (reset_locals st) Hpath Hfile)
    as (st1' & Hloop' & Hcalls & Hslept).
  assert (st1' = st1) as -> by congruence.
  subst out. rewrite Hrun. done.
Qed.

(** X14.  The two keyword arguments [run] cannot do without.  Without
    [model_name] it raises [AssertionError] before anything else, on any
    batch, the empty one included.  With it but without
    [prompt_template_path] it raises [KeyError] at the first task, outside
    the handler of the task.  Neither way is the transport called or a
    response assigned. *)
Theorem run_missing_kwargs input kwargs st :
  (kwargs !! "model_name" = None ->
   run input kwargs st = (Raise (AssertionError "model_name is required"), st)) /\
  (is_Some (kwargs !! "model_name") ->
   kwargs !! "prompt_template_path" = None ->
   input <> [] ->
   exists st',
     run input kwargs st = (Raise (KeyError "prompt_template_path"), st') /\
     calls st' = calls st /\ assigned st' = assigned st).
Proof.
  split.
  - intros Hmodel. unfold run. by rewrite Hmodel.
  - intros [m Hmodel] Hpath Hne. destruct input as [|[task_id t] input]; [done|].
    exists (reset_locals st). split; [|done].
    unfold run. rewrite Hmodel. unfold bind, modify. cbn [for_each].
    unfold bind, task_body, getitem, bind, raise. by rewrite Hpath.
Qed.

End Program.

(** ** The theorems on concrete inputs *)

Example get_python_code_print :
  _get_python_code fenced_print REGEX_FOR_PY_CODE_EXTRACTION FAILED_RESPONSE
  = Ret ("print(1)" +:+ nl).
Proof. vm_compute. reflexivity. Qed.

(** Fences that the pattern does not take for an opening fence: no tag, a
    capital letter, a longer tag, a blank before the newline, no newline. *)
Example findall_other_fences :
  Forall (fun text => findall REGEX_FOR_PY_CODE_EXTRACTION text = [])
    [ "```" +:+ nl +:+ "print(1)" +:+ nl +:+ "```";
      "```Python" +:+ nl +:+ "print(1)" +:+ nl +:+ "```";
      "```python3" +:+ nl +:+ "print(1)" +:+ nl +:+ "```";
      "```python " +:+ nl +:+ "print(1)" +:+ nl +:+ "```";
      "```python print(1)```" ].
Proof. repeat constructor. Qed.

(** Two captures in one text: [findall] lists both, the extractor returns
    the first. *)
Example findall_two_blocks :
  findall REGEX_FOR_PY_CODE_EXTRACTION
    (fenced_print +:+ " or " +:+ "```python" +:+ nl +:+ "print(2)```")
  = ["print(1)" +:+ nl; "print(2)"].
Proof. vm_compute. reflexivity. Qed.

(** The end-to-end examples of the specification.  One task whose model
    text is the fenced [print(1)]: the response is the body of the block. *)
Example run_one_task_fenced :
  (run (always_answers (a_response 12 fenced_print)) jitter_five sample_files
     append_question "main.py"
     [("t1", {[ "description" := "add two numbers" ]})] sample_kwargs initial_state).1
  = Ret [("t1", <["response" := "print(1)" +:+ nl]>
                  {[ "description" := "add two numbers" ]})].
Proof. vm_compute. reflexivity. Qed.

(** A model that returns zero completion tokens at every attempt: ten
    calls, nine sleeps, and the canned program as response. *)
Example run_one_task_empty_content :
  run (always_answers (a_response 0 "")) jitter_five sample_files
    append_question "main.py"
    [("t1", {[ "description" := "add two numbers" ]})] sample_kwargs initial_state
  = (Ret [("t1", <["response" := FAILED_RESPONSE]>
                   {[ "description" := "add two numbers" ]})],
     {| calls := 10; draws := 9;
        slept := [65; 125; 185; 245; 305; 365; 425; 485; 545];
        results := ∅;
        code := {[ "t1" := FAILED_RESPONSE ]};
        assigned := [("t1", FAILED_RESPONSE)] |}).
Proof. vm_compute. reflexivity. Qed.

(** A text without a block: the extractor raises inside [run], the handler
    of the task stores the canned program. *)
Example run_one_task_no_block :
  (run (always_answers (a_response 12 "I cannot help with that.")) jitter_five
     sample_files append_question "main.py"
     [("t1", {[ "description" := "add two numbers" ]})] sample_kwargs initial_state).1
  = Ret [("t1", <["response" := FAILED_RESPONSE]>
                  {[ "description" := "add two numbers" ]})].
Proof. vm_compute. reflexivity. Qed.

Lemma get_python_code_no_block_raises_witness :
  _get_python_code "no code here" REGEX_FOR_PY_CODE_EXTRACTION FAILED_RESPONSE
    = Raise (IndexError "list index out of range") /\
  _get_python_code "no code here" REGEX_FOR_PY_CODE_EXTRACTION FAILED_RESPONSE
    <> Ret FAILED_RESPONSE.
Proof.
  apply (get_python_code_no_block_raises REGEX_FOR_PY_CODE_EXTRACTION "no code here").
  intros H%has_block_has_opening. revert H.
  apply no_opening_by_search. vm_compute. reflexivity.
Defined.

Lemma get_python_code_first_block_witness :
  (exists pre body rest,
     first_block REGEX_FOR_PY_CODE_EXTRACTION
       ("Here you go: " +:+ fenced_print +:+ " and ```python" +:+ nl +:+ "x```")
       pre body rest) /\
  (forall pre body rest,
     first_block REGEX_FOR_PY_CODE_EXTRACTION
       ("Here you go: " +:+ fenced_print +:+ " and ```python" +:+ nl +:+ "x```")
       pre body rest ->
     _get_python_code
       ("Here you go: " +:+ fenced_print +:+ " and ```python" +:+ nl +:+ "x```")
       REGEX_FOR_PY_CODE_EXTRACTION FAILED_RESPONSE = Ret body /\
     forall rest',
       _get_python_code
         (pre +:+ opening REGEX_FOR_PY_CODE_EXTRACTION +:+ body +:+
          closing REGEX_FOR_PY_CODE_EXTRACTION +:+ rest')
         REGEX_FOR_PY_CODE_EXTRACTION FAILED_RESPONSE = Ret body).
Proof.
  apply (get_python_code_first_block REGEX_FOR_PY_CODE_EXTRACTION).
  exists "Here you go: ", ("print(1)" +:+ nl), (" and ```python" +:+ nl +:+ "x```").
  vm_compute. reflexivity.
Defined.

Lemma get_python_code_other_tags_witness :
  findall REGEX_FOR_PY_CODE_EXTRACTION ("```java" +:+ nl +:+ "int x;" +:+ nl +:+ "```") = [] /\
  forall text', ~ has_block REGEX_FOR_PY_CODE_EXTRACTION text' ->
    _get_python_code ("```java" +:+ nl +:+ "int x;" +:+ nl +:+ "```")
      REGEX_FOR_PY_CODE_EXTRACTION FAILED_RESPONSE
    = _get_python_code text' REGEX_FOR_PY_CODE_EXTRACTION FAILED_RESPONSE.
Proof.
  apply (get_python_code_other_tags ("```java" +:+ nl +:+ "int x;" +:+ nl +:+ "```")).
  intros pre post Htext [r ->].
  apply (no_opening_by_search REGEX_FOR_PY_CODE_EXTRACTION
           ("```java" +:+ nl +:+ "int x;" +:+ nl +:+ "```")).
  - vm_compute. reflexivity.
  - exists pre, r. rewrite Htext. reflexivity.
Defined.

Lemma process_task_rate_limited_exhausts_witness :
  exists m st',
    _process_task always_rate_limited jitter_five "t1" "model" "prompt"
      run_inference_params initial_state = (Raise (RateLimitError m), st') /\
    attempt_outcome always_rate_limited initial_state "model" "prompt"
      run_inference_params (Z.to_nat max_retries - 1) = Throws (RateLimitError m) /\
    Z.of_nat (calls st') = Z.of_nat (calls initial_state) + max_retries /\
    Z.of_nat (length (slept st'))
      = Z.of_nat (length (slept initial_state)) + (max_retries - 1).
Proof.
  apply process_task_rate_limited_exhausts.
  intros i _. exists "rate limit exceeded". reflexivity.
Defined.

Lemma process_task_success_iff_witness :
  _process_task (always_answers (a_response 12 fenced_print)) jitter_five
    "t1" "model" "prompt" run_inference_params initial_state
  = (Ret (Some (a_response 12 fenced_print)), with_calls S initial_state).
Proof.
  apply (process_task_success_iff (always_answers (a_response 12 fenced_print))
           jitter_five "t1" "model" "prompt" run_inference_params initial_state).
  - intros i r [= <-]. simpl. lia.
  - reflexivity.
  - simpl. lia.
Defined.

Lemma process_task_fatal_propagates_witness :
  let out :=
    _process_task (always_throws (OtherException "AuthenticationError" "invalid key"))
      jitter_five "t1" "model" "prompt" run_inference_params initial_state in
  out.1 = Raise (OtherException "AuthenticationError" "invalid key") /\
  calls out.2 = S (calls initial_state + 0) /\
  draws out.2 = (draws initial_state + 0)%nat /\
  length (slept out.2) = (length (slept initial_state) + 0)%nat /\
  (0%nat = 0%nat -> out.2 = with_calls S initial_state).
Proof.
  apply (process_task_fatal_propagates
           (always_throws (OtherException "AuthenticationError" "invalid key"))
           jitter_five "t1" "model" "prompt" run_inference_params initial_state 0).
  - unfold max_retries. lia.
  - intros i Hi. lia.
  - reflexivity.
  - intros m. discriminate.
  - intros m. discriminate.
Defined.

Lemma process_task_backoff_delay_witness :
  let out :=
    _process_task always_rate_limited jitter_five "t1" "model" "prompt"
      run_inference_params initial_state in
  let jitter := jitter_five (draws initial_state + 3)%nat 1 10 in
  slept out.2 !! (length (slept initial_state) + 3)%nat
    = Some (retry_delay * (Z.of_nat 3 + 1) + jitter) /\
  1 <= jitter <= 10 /\
  (draws initial_state + 3 < draws out.2)%nat /\
  max_retries = 10 /\ retry_delay = 60.
Proof.
  apply (process_task_backoff_delay always_rate_limited jitter_five
           "t1" "model" "prompt" run_inference_params initial_state 3).
  - intros d. unfold jitter_five. lia.
  - unfold max_retries. lia.
  - intros j _. eexists. reflexivity.
Defined.

Lemma process_task_recovers_witness :
  let out :=
    _process_task (rate_limited_then 3 (a_response 12 fenced_print)) jitter_five
      "t1" "model" "prompt" run_inference_params initial_state in
  out.1 = Ret (Some (a_response 12 fenced_print)) /\
  slept out.2 = [65; 125; 185] /\
  sum_list (base_delays retry_delay 3) <= total_slept out.2 - total_slept initial_state.
Proof.
  pose proof (process_task_recovers (rate_limited_then 3 (a_response 12 fenced_print))
                jitter_five "t1" "model" "prompt" run_inference_params initial_state
                3 (a_response 12 fenced_print)) as H.
  destruct H as (Hret & Hslept & _ & _ & Hsum & _).
  - intros d. unfold jitter_five. lia.
  - unfold max_retries. lia.
  - intros i Hi. exists "rate limit exceeded".
    unfold attempt_outcome, rate_limited_then. simpl.
    destruct (Nat.ltb_spec i 3); [reflexivity | lia].
  - reflexivity.
  - simpl. lia.
  - split; [exact Hret|]. split; [|exact Hsum].
    rewrite Hslept. reflexivity.
Defined.

Lemma run_sets_each_response_once_witness :
  exists st',
    run (fails_then_answers (OtherException "ValueError" "bad request")
           (a_response 12 fenced_print))
      jitter_five sample_files append_question "main.py"
      sample_input sample_kwargs initial_state
    = (Ret (with_responses (code st') sample_input), st') /\
    code st' !! "t1" = Some FAILED_RESPONSE /\
    code st' !! "t2" = Some ("print(1)" +:+ nl) /\
    assigned st' = [("t1", FAILED_RESPONSE); ("t2", "print(1)" +:+ nl)].
Proof.
  destruct (run_sets_each_response_once
              (fails_then_answers (OtherException "ValueError" "bad request")
                 (a_response 12 fenced_print))
              jitter_five sample_files append_question "main.py"
              sample_input sample_kwargs initial_state
              "bedrock/amazon.nova-lite-v1:0" nova_template_path
              "Solve the problem: ")
    as (st' & Hrun & Hassigned & _).
  - apply (bool_decide_unpack _). vm_compute. exact I.
  - vm_compute. reflexivity.
  - vm_compute. reflexivity.
  - vm_compute. reflexivity.
  - exists st'. split; [exact Hrun|].
    assert (st' = (run (fails_then_answers (OtherException "ValueError" "bad request")
                          (a_response 12 fenced_print))
                     jitter_five sample_files append_question "main.py"
                     sample_input sample_kwargs initial_state).2) as ->
      by (rewrite Hrun; reflexivity).
    vm_compute. repeat split; reflexivity.
Defined.

Lemma run_template_missing_witness :
  exists msg st',
    run always_rate_limited jitter_five ∅ append_question "main.py"
      sample_input sample_kwargs initial_state
    = (Raise (FileNotFoundError msg), st') /\
    assigned st' = assigned initial_state /\
    calls st' = calls initial_state /\
    code st' = ∅.
Proof.
  apply (run_template_missing always_rate_limited jitter_five ∅ append_question
           "main.py" sample_input sample_kwargs initial_state
           "bedrock/amazon.nova-lite-v1:0" nova_template_path).
  - discriminate.
  - vm_compute. reflexivity.
  - vm_compute. reflexivity.
  - vm_compute. reflexivity.
Defined.

(** C9 as stated fails on the empty batch: the template is looked for
    inside the loop over the tasks, so with no task [run] returns the empty
    mapping although the template file is absent. *)
Lemma run_empty_batch_template_missing :
  sample_kwargs !! "prompt_template_path" = Some nova_template_path /\
  (∅ : gmap string string) !! nova_template_path = None /\
  run always_rate_limited jitter_five ∅ append_question "main.py"
    [] sample_kwargs initial_state
  = (Ret [], initial_state).
Proof. vm_compute. repeat split; reflexivity. Qed.

(** ** The further theorems on concrete inputs *)

Lemma findall_first_block_witness :
  findall REGEX_FOR_PY_CODE_EXTRACTION
    ("Sure: " +:+ "```python" +:+ nl +:+ ("print(1)" +:+ nl) +:+ "```" +:+
     (" or " +:+ "```python" +:+ nl +:+ "print(2)```"))
  = ("print(1)" +:+ nl)
      :: findall REGEX_FOR_PY_CODE_EXTRACTION
           (" or " +:+ "```python" +:+ nl +:+ "print(2)```").
Proof.
  apply (findall_first_block REGEX_FOR_PY_CODE_EXTRACTION _ "Sure: "
           ("print(1)" +:+ nl)).
  - discriminate.
  - split; [reflexivity|]. split.
    + apply no_start_within_fresh. vm_compute. reflexivity.
    + apply (lazy_until_sound "```"
               ("print(1)" +:+ nl +:+ "```" +:+ " or ```python" +:+ nl +:+ "print(2)```")
               ("print(1)" +:+ nl)
               (" or ```python" +:+ nl +:+ "print(2)```")).
      vm_compute. reflexivity.
Defined.

Lemma get_python_code_no_fence_inside_witness :
  (exists pre rest,
     "Here you go: " +:+ fenced_print
     = pre +:+ opening REGEX_FOR_PY_CODE_EXTRACTION +:+ ("print(1)" +:+ nl) +:+
       closing REGEX_FOR_PY_CODE_EXTRACTION +:+ rest) /\
  ~ (exists u v,
       "print(1)" +:+ nl = u +:+ closing REGEX_FOR_PY_CODE_EXTRACTION +:+ v).
Proof.
  apply (get_python_code_no_fence_inside REGEX_FOR_PY_CODE_EXTRACTION
           ("Here you go: " +:+ fenced_print) FAILED_RESPONSE).
  - discriminate.
  - vm_compute. reflexivity.
Defined.

Lemma get_python_code_unclosed_witness :
  _get_python_code
    ("Sure: " +:+ opening REGEX_FOR_PY_CODE_EXTRACTION +:+
     ("def main():" +:+ nl +:+ "    print("))
    REGEX_FOR_PY_CODE_EXTRACTION FAILED_RESPONSE
  = Raise (IndexError "list index out of range").
Proof.
  apply get_python_code_unclosed.
  - apply no_start_within_fresh. vm_compute. reflexivity.
  - intros (u & v & H).
    assert (contains_b "```" ("def main():" +:+ nl +:+ "    print(") = true) as Hin
      by (apply contains_b_complete; by exists u, v).
    vm_compute in Hin. discriminate.
Defined.

Lemma process_task_exhausts_any_mix_witness :
  exists e st',
    classify (attempt_outcome (always_answers (a_response 0 "blocked"))
                initial_state "model" "prompt" run_inference_params 9)
      = Retryable e /\
    _process_task (always_answers (a_response 0 "blocked")) jitter_five
      "t1" "model" "prompt" run_inference_params initial_state = (Raise e, st') /\
    calls st' = (calls initial_state + 10)%nat /\
    draws st' = (draws initial_state + 9)%nat /\
    length (slept st') = (length (slept initial_state) + 9)%nat.
Proof.
  apply process_task_exhausts_any_mix.
  intros i _. eexists. reflexivity.
Defined.

Lemma process_task_recovers_any_mix_witness :
  let out :=
    _process_task (empty_then 2 (a_response 12 fenced_print)) jitter_five
      "t1" "model" "prompt" run_inference_params initial_state in
  out.1 = Ret (Some (a_response 12 fenced_print)) /\
  calls out.2 = S (calls initial_state + 2) /\
  draws out.2 = (draws initial_state + 2)%nat /\
  slept out.2
    = slept initial_state ++ backoff_delays jitter_five retry_delay 0 (draws initial_state) 2.
Proof.
  apply (process_task_recovers_any_mix (empty_then 2 (a_response 12 fenced_print))
           jitter_five "t1" "model" "prompt" run_inference_params initial_state 2).
  - lia.
  - intros i Hi. eexists. unfold attempt_outcome, empty_then. simpl.
    destruct (Nat.ltb_spec i 2); [reflexivity | lia].
  - reflexivity.
  - simpl. lia.
Defined.

Lemma process_task_sleep_bound_witness :
  let out :=
    _process_task always_rate_limited jitter_five "t1" "model" "prompt"
      run_inference_params initial_state in
  0 <= total_slept out.2 - total_slept initial_state <= 2790 /\
  (forall i d1 d2,
     slept out.2 !! (length (slept initial_state) + i)%nat = Some d1 ->
     slept out.2 !! (length (slept initial_state) + S i)%nat = Some d2 ->
     d1 + 51 <= d2 <= d1 + 69).
Proof.
  apply (process_task_sleep_bound always_rate_limited jitter_five).
  intros i. unfold jitter_five. lia.
Defined.

Lemma run_preserves_batch_witness :
  exists out st',
    run (always_answers (a_response 12 fenced_print)) jitter_five sample_files
      append_question "main.py" ragged_input sample_kwargs initial_state
    = (Ret out, st') /\
    out.*1 = ragged_input.*1 /\
    forall i task_id t, ragged_input !! i = Some (task_id, t) ->
      exists t', out !! i = Some (task_id, t') /\
        t' !! "response" = Some (code st' !!! task_id) /\
        forall field, field <> "response" -> t' !! field = t !! field.
Proof.
  apply (run_preserves_batch (always_answers (a_response 12 fenced_print))
           jitter_five sample_files append_question "main.py" ragged_input
           sample_kwargs initial_state nova_model nova_template_path
           "Solve the problem: ").
  - apply (bool_decide_unpack _). vm_compute. exact I.
  - vm_compute. reflexivity.
  - vm_compute. reflexivity.
  - vm_compute. reflexivity.
Defined.

Lemma run_returns_first_block_witness :
  exists out st',
    run (always_answers (a_response 12 fenced_print)) jitter_five sample_files
      append_question "main.py" sample_input sample_kwargs initial_state
    = (Ret out, st') /\
    out !! 0%nat
    = Some ("t1", <["response" := "print(1)" +:+ nl]>
                    {[ "description" := "add two numbers" ]}).
Proof.
  apply (run_returns_first_block (always_answers (a_response 12 fenced_print))
           jitter_five sample_files append_question "main.py" sample_input
           sample_kwargs initial_state nova_model nova_template_path
           "Solve the problem: " [] "t1" {[ "description" := "add two numbers" ]}
           [("t2", {[ "description" := "sort a list" ]})]).
  - apply (bool_decide_unpack _). vm_compute. exact I.
  - vm_compute. reflexivity.
  - vm_compute. reflexivity.
  - vm_compute. reflexivity.
  - reflexivity.
  - exists "add two numbers", "Solve the problem: add two numbers", nova_model,
      (a_response 12 fenced_print).
    eexists. exists [].
    repeat split; vm_compute; reflexivity.
Defined.

Lemma run_no_block_falls_back_witness :
  exists out st',
    run (always_answers (a_response 12 "I cannot help with that.")) jitter_five
      sample_files append_question "main.py" sample_input sample_kwargs initial_state
    = (Ret out, st') /\
    out !! 0%nat
    = Some ("t1", <["response" := FAILED_RESPONSE]>
                    {[ "description" := "add two numbers" ]}).
Proof.
  apply (run_no_block_falls_back
           (always_answers (a_response 12 "I cannot help with that."))
           jitter_five sample_files append_question "main.py" sample_input
           sample_kwargs initial_state nova_model nova_template_path
           "Solve the problem: " [] "t1" {[ "description" := "add two numbers" ]}
           [("t2", {[ "description" := "sort a list" ]})]
           "add two numbers" "Solve the problem: add two numbers"
           (a_response 12 "I cannot help with that.")
           (with_calls S initial_state)).
  - apply (bool_decide_unpack _). vm_compute. exact I.
  - vm_compute. reflexivity.
  - vm_compute. reflexivity.
  - vm_compute. reflexivity.
  - reflexivity.
  - vm_compute. reflexivity.
  - reflexivity.
  - vm_compute. reflexivity.
  - intros H%has_block_has_opening. revert H.
    apply no_opening_by_search. vm_compute. reflexivity.
Defined.

Lemma run_task_without_prompt_witness :
  (exists out st',
     run (always_answers (a_response 12 fenced_print)) jitter_five sample_files
       append_question "main.py" ragged_input sample_kwargs initial_state
     = (Ret out, st') /\
     out !! 0%nat
     = Some ("t1", <["response" := FAILED_RESPONSE]>
                     {[ "title" := "no description here" ]})) /\
  calls (state_before (always_answers (a_response 12 fenced_print)) jitter_five
           sample_files append_question "main.py" sample_kwargs
           ([] ++ [("t1", {[ "title" := "no description here" ]})]) initial_state)
    = calls (state_before (always_answers (a_response 12 fenced_print)) jitter_five
               sample_files append_question "main.py" sample_kwargs [] initial_state) /\
  draws (state_before (always_answers (a_response 12 fenced_print)) jitter_five
           sample_files append_question "main.py" sample_kwargs
           ([] ++ [("t1", {[ "title" := "no description here" ]})]) initial_state)
    = draws (state_before (always_answers (a_response 12 fenced_print)) jitter_five
               sample_files append_question "main.py" sample_kwargs [] initial_state) /\
  slept (state_before (always_answers (a_response 12 fenced_print)) jitter_five
           sample_files append_question "main.py" sample_kwargs
           ([] ++ [("t1", {[ "title" := "no description here" ]})]) initial_state)
    = slept (state_before (always_answers (a_response 12 fenced_print)) jitter_five
               sample_files append_question "main.py" sample_kwargs [] initial_state).
Proof.
  apply (run_task_without_prompt (always_answers (a_response 12 fenced_print))
           jitter_five sample_files append_question "main.py" ragged_input
           sample_kwargs initial_state nova_model nova_template_path
           "Solve the problem: " [] "t1" {[ "title" := "no description here" ]}
           [("t2", <["response" := "stale"]>
                     (<["level" := "gold"]> {[ "description" := "sort a list" ]}))]).
  - apply (bool_decide_unpack _). vm_compute. exact I.
  - vm_compute. reflexivity.
  - vm_compute. reflexivity.
  - vm_compute. reflexivity.
  - reflexivity.
  - left. vm_compute. reflexivity.
Defined.

Lemma run_cost_witness :
  let out :=
    run always_rate_limited jitter_five sample_files append_question "main.py"
      sample_input sample_kwargs initial_state in
  (calls initial_state <= calls out.2
   <= calls initial_state + 10 * length sample_input)%nat /\
  ((forall i, 1 <= jitter_five i 1 10 <= 10) ->
   0 <= total_slept out.2 - total_slept initial_state
   <= 2790 * Z.of_nat (length sample_input)).
Proof.
  apply (run_cost always_rate_limited jitter_five sample_files append_question
           "main.py" sample_input sample_kwargs initial_state nova_model
           nova_template_path "Solve the problem: ").
  - vm_compute. reflexivity.
  - vm_compute. reflexivity.
  - vm_compute. reflexivity.
Defined.

Lemma run_missing_kwargs_witness :
  run always_rate_limited jitter_five sample_files append_question "main.py"
    sample_input ∅ initial_state
  = (Raise (AssertionError "model_name is required"), initial_state) /\
  exists st',
    run always_rate_limited jitter_five sample_files append_question "main.py"
      sample_input {[ "model_name" := nova_model ]} initial_state
    = (Raise (KeyError "prompt_template_path"), st') /\
    calls st' = calls initial_state /\ assigned st' = assigned initial_state.
Proof.
  split.
  - apply (run_missing_kwargs always_rate_limited jitter_five sample_files
             append_question "main.py" sample_input ∅ initial_state).
    vm_compute. reflexivity.
  - apply (run_missing_kwargs always_rate_limited jitter_five sample_files
             append_question "main.py" sample_input
             {[ "model_name" := nova_model ]} initial_state).
    + exists nova_model. vm_compute. reflexivity.
    + vm_compute. reflexivity.
    + discriminate.
Defined.

(** ** What [run] asks of the transport *)

Lemma for_returning_ext {X A} (body body' : X -> M (flow A)) (xs : list X) st :
  (forall x st, body x st = body' x st) ->
  for_returning body xs st = for_returning body' xs st.
Proof.
  intros Hext. revert st; induction xs as [|x xs IH]; intros st; [done|].
  simpl. unfold bind. rewrite Hext.
  destruct (body' x st) as [[[|a]|e] st1]; auto.
Qed.

Lemma for_each_ext {X} (body body' : X -> M unit) (xs : list X) st :
  (forall x st, body x st = body' x st) ->
  for_each body xs st = for_each body' xs st.
Proof.
  intros Hext. revert st; induction xs as [|x xs IH]; intros st; [done|].
  simpl. unfold bind. rewrite Hext.
  destruct (body' x st) as [[[]|e] st1]; auto.
Qed.

Lemma process_task_ext completion completion' randint task_id model_name prompt params st :
  (forall i, completion i model_name [{| role := "user"; content := prompt |}] params
             = completion' i model_name [{| role := "user"; content := prompt |}] params) ->
  _process_task completion randint task_id model_name prompt params st
  = _process_task completion' randint task_id model_name prompt params st.
Proof.
  intros Hext. unfold _process_task, retry_loop. apply for_returning_ext.
  intros attempt st0. unfold attempt_body, try_except, bind, call_completion.
  by rewrite Hext.
Qed.

(** X15.  All that [run] asks of the transport are requests for the model
    of [kwargs] with a single message of role [user] and the parameters
    [max_tokens=2000], [temperature=0.1], [n=1]: two transports that agree
    on every request of this form give the same result and the same final
    state. *)
Theorem run_requests_only completion completion' randint fs str_format this_file
    input kwargs st :
  (forall i model_name prompt,
     kwargs !! "model_name" = Some model_name ->
     completion i model_name [{| role := "user"; content := prompt |}]
       run_inference_params
     = completion' i model_name [{| role := "user"; content := prompt |}]
         run_inference_params) ->
  run completion randint fs str_format this_file input kwargs st
  = run completion' randint fs str_format this_file input kwargs st.
Proof.
  intros Hext. unfold run. destruct (kwargs !! "model_name") as [m|] eqn:Hm; [|done].
  unfold bind, modify.
  rewrite (for_each_ext (task_body completion randint fs str_format this_file kwargs)
             (task_body completion' randint fs str_format this_file kwargs)); [done|].
  intros [task_id t] st0. unfold task_body, bind.
  destruct (getitem kwargs "prompt_template_path" st0) as [[path|e] st1]; [|done].
  destruct (match fs !! path with Some text => ret text | None => _ end st1)
    as [[template|e] st2]; [|done].
  unfold try_except, task_try, bind.
  destruct (getitem t "description" st2) as [[d|e] st3]; [|done].
  destruct (lift (str_format template d) st3) as [[prompt|e] st4]; [|done].
  unfold getitem. rewrite Hm. unfold ret.
  by rewrite (process_task_ext completion completion' randint task_id m prompt
                run_inference_params st4) by (intros i; by apply Hext).
Qed.

Lemma run_requests_only_witness :
  run (always_answers (a_response 12 fenced_print)) jitter_five sample_files
    append_question "main.py" sample_input sample_kwargs initial_state
  = run (answers_single_message (a_response 12 fenced_print)) jitter_five
      sample_files append_question "main.py" sample_input sample_kwargs initial_state.
Proof.
  apply run_requests_only. intros i model_name prompt _. reflexivity.
Defined.
